(** * The BPF endpoint manager of the Linux dataplane (dataplane/linux/bpf_ep_mgr.go)

    A shallow embedding of the cache and reverse-index mutators, the rule
    extractor, the TC attach-point calculator and the compile-and-attach
    pipeline, with the properties the specification states about them.

    Conventions of the embedding.
    - Go maps are [gmap]s, [set.Set] values are [gset]s.  A set stored in a
      map is a reference in Go; mutating it in place is an update of the map
      entry here (every set is created by [set.New()] for one key, so no
      two keys alias).
    - A lookup of an absent key yields Go's zero value: [nil] for the
      pointer- and set-valued maps.  Reading a field through a nil pointer
      is a run-time panic, which the embedding makes explicit with the
      [Result] type.
    - Messages from the calculation graph are well formed: their pointer
      fields ([Id], [Endpoint], [Policy], [Profile]) are populated.
    - The string-typed constants ([PolDirection], [TCHook], [ToOrFromEp],
      [EndpointType]) are enumerations of the declared values, each with its
      string.
    - External programs (clang, llc, tc, bpftool), the filesystem and the
      program generator are oracles collected in the [World] record.  The
      goroutines of a reconciliation share nothing but the error map, so
      they are run one after the other. *)

From Stdlib Require Import ZArith Ascii.
From stdpp Require Import base option list strings pretty gmap fin_maps fin_sets.

Local Open Scope string_scope.
Local Open Scope Z_scope.
Local Open Scope list_scope.

#[local] Set Warnings "-clear-no-such-hyp".

(** ** Panics *)

Inductive Result (A : Type) : Type :=
| Ok (a : A)
| Panic.
Arguments Ok {A} a.
Arguments Panic {A}.

Definition Result_bind {A B} (f : A → Result B) (r : Result A) : Result B :=
  match r with
  | Ok a => f a
  | Panic => Panic
  end.

#[global] Instance Result_ret : MRet Result := λ A a, Ok a.
#[global] Instance Result_mbind : MBind Result := λ A B f r, Result_bind f r.

(** A [for ... range] loop whose body may panic. *)
Fixpoint forM {A B} (body : B → A → Result B) (acc : B) (l : list A) : Result B :=
  match l with
  | [] => Ok acc
  | x :: l' => acc' ← body acc x; forM body acc' l'
  end.

(** ** Protocol types *)

(** Modelled from the spec: the message and datamodel types of package
    [proto] are declared outside this file.  Only the fields the manager
    reads are kept. *)
Record WorkloadEndpointID := mkWorkloadEndpointID {
  OrchestratorId : string;
  WorkloadId : string;
  EndpointId : string;
}.

Record PolicyID := mkPolicyID {
  PolicyID_Tier : string;
  PolicyID_Name : string;
}.

Record ProfileID := mkProfileID {
  ProfileID_Name : string;
}.

#[global] Instance WorkloadEndpointID_eq_dec : EqDecision WorkloadEndpointID.
Proof. solve_decision. Defined.
#[global] Instance PolicyID_eq_dec : EqDecision PolicyID.
Proof. solve_decision. Defined.
#[global] Instance ProfileID_eq_dec : EqDecision ProfileID.
Proof. solve_decision. Defined.

#[global] Instance WorkloadEndpointID_countable : Countable WorkloadEndpointID :=
  inj_countable'
    (λ i, (OrchestratorId i, WorkloadId i, EndpointId i))
    (λ t, mkWorkloadEndpointID t.1.1 t.1.2 t.2)
    (λ i, match i with mkWorkloadEndpointID _ _ _ => eq_refl end).
#[global] Instance PolicyID_countable : Countable PolicyID :=
  inj_countable'
    (λ i, (PolicyID_Tier i, PolicyID_Name i))
    (λ t, mkPolicyID t.1 t.2)
    (λ i, match i with mkPolicyID _ _ => eq_refl end).
#[global] Instance ProfileID_countable : Countable ProfileID :=
  inj_countable' ProfileID_Name mkProfileID
    (λ i, match i with mkProfileID _ => eq_refl end).

Record Rule := mkRule {
  Action : string;
}.

Record TierInfo := mkTierInfo {
  TierInfo_Name : string;
  IngressPolicies : list string;
  EgressPolicies : list string;
}.

Record WorkloadEndpoint := mkWorkloadEndpoint {
  WorkloadEndpoint_Name : string;
  Tiers : list TierInfo;
  ProfileIds : list string;
}.

Record Policy := mkPolicy {
  Policy_InboundRules : list Rule;
  Policy_OutboundRules : list Rule;
}.

Record Profile := mkProfile {
  Profile_InboundRules : list Rule;
  Profile_OutboundRules : list Rule;
}.

(** ** Directions, hooks, endpoint kinds and compile flags *)

Inductive PolDirection := PolDirnIngress | PolDirnEgress.
Inductive TCHook := TCHookIngress | TCHookEgress.
Inductive ToOrFromEp := FromEp | ToEp.
Inductive EndpointType := EpTypeWorkload | EpTypeHost | EpTypeTunnel.

#[global] Instance PolDirection_eq_dec : EqDecision PolDirection.
Proof. solve_decision. Defined.
#[global] Instance TCHook_eq_dec : EqDecision TCHook.
Proof. solve_decision. Defined.
#[global] Instance ToOrFromEp_eq_dec : EqDecision ToOrFromEp.
Proof. solve_decision. Defined.
#[global] Instance EndpointType_eq_dec : EqDecision EndpointType.
Proof. solve_decision. Defined.

(** The string values of the typed constants. *)
Definition TCHook_string (h : TCHook) : string :=
  match h with TCHookIngress => "ingress" | TCHookEgress => "egress" end.
Definition ToOrFromEp_string (t : ToOrFromEp) : string :=
  match t with FromEp => "from" | ToEp => "to" end.
Definition EndpointType_string (e : EndpointType) : string :=
  match e with
  | EpTypeWorkload => "workload"
  | EpTypeHost => "host"
  | EpTypeTunnel => "tunnel"
  end.

(** The field [Section] is spelled [Section_], the word being reserved. *)
Record TCAttachPoint := mkTCAttachPoint {
  Section_ : string;
  Hook : TCHook;
  Iface : string;
  CompileFlags : Z;
}.

Definition CompileFlagHostEp : Z := 1.
Definition CompileFlagIngress : Z := 2.
Definition CompileFlagTunnel : Z := 4.
Definition CompileFlagCgroup : Z := 8.

(** [fmt.Sprintf("calico_%s_%s_ep", fromOrTo, endpointType)] *)
Definition BPFSectionName (endpointType : EndpointType) (fromOrTo : ToOrFromEp) : string :=
  "calico_" +:+ ToOrFromEp_string fromOrTo +:+ "_" +:+
  EndpointType_string endpointType +:+ "_ep".

(** The package-level table, filled by [init] one assignment after the
    other. *)
Definition bpfSectionToFlags : gmap string Z :=
  let t : gmap string Z := ∅ in
  let t := <[BPFSectionName EpTypeWorkload FromEp := 0]> t in
  let t := <[BPFSectionName EpTypeWorkload ToEp := CompileFlagIngress]> t in
  let t := <[BPFSectionName EpTypeHost FromEp :=
               Z.lor CompileFlagHostEp CompileFlagIngress]> t in
  let t := <[BPFSectionName EpTypeHost ToEp := CompileFlagHostEp]> t in
  let t := <[BPFSectionName EpTypeTunnel FromEp :=
               Z.lor (Z.lor CompileFlagHostEp CompileFlagIngress) CompileFlagTunnel]> t in
  let t := <[BPFSectionName EpTypeTunnel ToEp :=
               Z.lor CompileFlagHostEp CompileFlagTunnel]> t in
  t.

(** An unknown section name is a logged panic. *)
Definition BPFSectionToFlags (section : string) : Result Z :=
  match bpfSectionToFlags !! section with
  | Some flags => Ok flags
  | None => Panic
  end.

Definition calculateTCAttachPoint (endpointType : EndpointType)
    (policyDirection : PolDirection) (ifaceName : string) : Result TCAttachPoint :=
  let hook :=
    if decide (endpointType = EpTypeWorkload) then
      if decide (policyDirection = PolDirnIngress) then TCHookEgress else TCHookIngress
    else
      if decide (policyDirection = PolDirnIngress) then TCHookIngress else TCHookEgress in
  let toOrFrom := if decide (hook = TCHookIngress) then FromEp else ToEp in
  let section := BPFSectionName endpointType toOrFrom in
  flags ← BPFSectionToFlags section;
  mret {| Section_ := section; Hook := hook; Iface := ifaceName; CompileFlags := flags |}.

(** ** Interfaces and the outside world *)

(** Modelled from the spec: the interface states of package
    [ifacemonitor]; [StateUnknown] is the zero value. *)
Inductive State := StateUnknown | StateDown | StateUp.

#[global] Instance State_eq_dec : EqDecision State.
Proof. solve_decision. Defined.

(** [net.IP] in its 4-byte form. *)
Definition IP : Type := list Z.

Record epIface := mkEpIface {
  epIface_State : State;
  addrs : list IP;
}.

(** The zero value a Go map returns for an absent interface. *)
Definition epIface_zero : epIface := {| epIface_State := StateUnknown; addrs := [] |}.

(** Go's [error] values, by their message. *)
Definition error : Type := string.

Inductive LogLevel := LevelDebug | LevelInfo | LevelWarn | LevelError.

Record LogEntry := mkLogEntry {
  Level : LogLevel;
  Message : string;
}.

(** What the manager asks of its environment.  Each field stands for one
    external call of the source and gives its outcome. *)
Record World := mkWorld {
  (** [net.ParseIP(str)] followed by [To4()]: nil unless an IPv4 address. *)
  parseIPv4 : string → option IP;
  (** [ioutil.TempDir("", "calico-compile")]: the directory, or nil on an
      error. *)
  TempDir : option string;
  (** [CompileTCProgramToFile] for a rule tree and the options derived from
      an attach point and the interface's first address: the clang | llc
      pipeline; it may also panic. *)
  CompileTCProgramToFile :
    list (list (list Rule)) → TCAttachPoint → option IP → Result (option error);
  (** [tc filter add dev <iface> <hook> bpf da obj <file> sec <section>]:
      the combined output and the exit error. *)
  tcFilterAdd : string → TCAttachPoint → string * option error;
  (** The deferred walk of /sys/fs/bpf/tc re-pinning every [cali_jump] map;
      [false] when one of its steps fails, which is a panic. *)
  repinJumpMaps : bool;
  (** [bpf.NewProgramGenerator] and [WriteProgram] into a buffer: the
      error of the one that fails, if any. *)
  dumpProgram : list (list (list Rule)) → option error;
  (** [writeProcSys path value] *)
  writeProcSys : string → string → option error;
}.

(** ** Update messages *)

Record ifaceUpdate := mkIfaceUpdate {
  ifaceUpdate_Name : string;
  ifaceUpdate_State : State;
}.

(** [Addrs] is a set of strings or nil; the list is its iteration order. *)
Record ifaceAddrsUpdate := mkIfaceAddrsUpdate {
  ifaceAddrsUpdate_Name : string;
  Addrs : option (list string);
}.

Record WorkloadEndpointUpdate := mkWorkloadEndpointUpdate {
  WorkloadEndpointUpdate_Id : WorkloadEndpointID;
  Endpoint : WorkloadEndpoint;
}.

Record WorkloadEndpointRemove := mkWorkloadEndpointRemove {
  WorkloadEndpointRemove_Id : WorkloadEndpointID;
}.

Record ActivePolicyUpdate := mkActivePolicyUpdate {
  ActivePolicyUpdate_Id : PolicyID;
  ActivePolicyUpdate_Policy : Policy;
}.

Record ActivePolicyRemove := mkActivePolicyRemove {
  ActivePolicyRemove_Id : PolicyID;
}.

Record ActiveProfileUpdate := mkActiveProfileUpdate {
  ActiveProfileUpdate_Id : ProfileID;
  ActiveProfileUpdate_Profile : Profile;
}.

Record ActiveProfileRemove := mkActiveProfileRemove {
  ActiveProfileRemove_Id : ProfileID;
}.

(** The dynamic type of the [interface{}] argument of [OnUpdate]. *)
Inductive Msg :=
| MsgIfaceUpdate (msg : ifaceUpdate)
| MsgIfaceAddrsUpdate (msg : ifaceAddrsUpdate)
| MsgWorkloadEndpointUpdate (msg : WorkloadEndpointUpdate)
| MsgWorkloadEndpointRemove (msg : WorkloadEndpointRemove)
| MsgActivePolicyUpdate (msg : ActivePolicyUpdate)
| MsgActivePolicyRemove (msg : ActivePolicyRemove)
| MsgActiveProfileUpdate (msg : ActiveProfileUpdate)
| MsgActiveProfileRemove (msg : ActiveProfileRemove)
| MsgOther.

(** ** The manager *)

(** The caches, indexes and dirty sets of [bpfEndpointManager], and the
    data-interface pattern by its [MatchString].  The remaining
    configuration fields only feed compiler options. *)
Record bpfEndpointManager := mkBpfEndpointManager {
  wlEps : gmap WorkloadEndpointID WorkloadEndpoint;
  policies : gmap PolicyID Policy;
  profiles : gmap ProfileID Profile;
  ifaces : gmap string epIface;
  policiesToWorkloads : gmap PolicyID (gset WorkloadEndpointID);
  profilesToWorkloads : gmap ProfileID (gset WorkloadEndpointID);
  dirtyWorkloads : gset WorkloadEndpointID;
  dirtyIfaces : gset string;
  dataIfaceRegex : string → bool;
}.

Definition newBPFEndpointManager (dataIfaceRegex : string → bool) : bpfEndpointManager :=
  {| wlEps := ∅; policies := ∅; profiles := ∅; ifaces := ∅;
     policiesToWorkloads := ∅; profilesToWorkloads := ∅;
     dirtyWorkloads := ∅; dirtyIfaces := ∅;
     dataIfaceRegex := dataIfaceRegex |}.

Definition set_wlEps v (m : bpfEndpointManager) : bpfEndpointManager :=
  mkBpfEndpointManager v (policies m) (profiles m) (ifaces m)
    (policiesToWorkloads m) (profilesToWorkloads m)
    (dirtyWorkloads m) (dirtyIfaces m) (dataIfaceRegex m).
Definition set_policies v (m : bpfEndpointManager) : bpfEndpointManager :=
  mkBpfEndpointManager (wlEps m) v (profiles m) (ifaces m)
    (policiesToWorkloads m) (profilesToWorkloads m)
    (dirtyWorkloads m) (dirtyIfaces m) (dataIfaceRegex m).
Definition set_profiles v (m : bpfEndpointManager) : bpfEndpointManager :=
  mkBpfEndpointManager (wlEps m) (policies m) v (ifaces m)
    (policiesToWorkloads m) (profilesToWorkloads m)
    (dirtyWorkloads m) (dirtyIfaces m) (dataIfaceRegex m).
Definition set_ifaces v (m : bpfEndpointManager) : bpfEndpointManager :=
  mkBpfEndpointManager (wlEps m) (policies m) (profiles m) v
    (policiesToWorkloads m) (profilesToWorkloads m)
    (dirtyWorkloads m) (dirtyIfaces m) (dataIfaceRegex m).
Definition set_policiesToWorkloads v (m : bpfEndpointManager) : bpfEndpointManager :=
  mkBpfEndpointManager (wlEps m) (policies m) (profiles m) (ifaces m)
    v (profilesToWorkloads m)
    (dirtyWorkloads m) (dirtyIfaces m) (dataIfaceRegex m).
Definition set_profilesToWorkloads v (m : bpfEndpointManager) : bpfEndpointManager :=
  mkBpfEndpointManager (wlEps m) (policies m) (profiles m) (ifaces m)
    (policiesToWorkloads m) v
    (dirtyWorkloads m) (dirtyIfaces m) (dataIfaceRegex m).
Definition set_dirtyWorkloads v (m : bpfEndpointManager) : bpfEndpointManager :=
  mkBpfEndpointManager (wlEps m) (policies m) (profiles m) (ifaces m)
    (policiesToWorkloads m) (profilesToWorkloads m)
    v (dirtyIfaces m) (dataIfaceRegex m).
Definition set_dirtyIfaces v (m : bpfEndpointManager) : bpfEndpointManager :=
  mkBpfEndpointManager (wlEps m) (policies m) (profiles m) (ifaces m)
    (policiesToWorkloads m) (profilesToWorkloads m)
    (dirtyWorkloads m) v (dataIfaceRegex m).

(** [m.ifaces[name]] *)
Definition ifaceOf (m : bpfEndpointManager) (name : string) : epIface :=
  default epIface_zero (ifaces m !! name).

Definition onInterfaceUpdate (m : bpfEndpointManager) (update : ifaceUpdate)
    : bpfEndpointManager :=
  let name := ifaceUpdate_Name update in
  let m :=
    if decide (ifaceUpdate_State update = StateUnknown) then
      set_ifaces (delete name (ifaces m)) m
    else
      let iface := ifaceOf m name in
      let iface := {| epIface_State := ifaceUpdate_State update; addrs := addrs iface |} in
      set_ifaces (<[name := iface]> (ifaces m)) m in
  set_dirtyIfaces ({[name]} ∪ dirtyIfaces m) m.

Definition onInterfaceAddrsUpdate (w : World) (m : bpfEndpointManager)
    (update : ifaceAddrsUpdate) : bpfEndpointManager :=
  match Addrs update with
  | None => m
  | Some strs =>
      let addrs :=
        foldl (λ addrs str,
                 match parseIPv4 w str with
                 | None => addrs
                 | Some ip => (addrs ++ [ip])%list
                 end) [] strs in
      let name := ifaceAddrsUpdate_Name update in
      let iface := ifaceOf m name in
      let iface := {| epIface_State := epIface_State iface; addrs := addrs |} in
      let m := set_ifaces (<[name := iface]> (ifaces m)) m in
      set_dirtyIfaces ({[name]} ∪ dirtyIfaces m) m
  end.

(** [polSet := idx[k]; if polSet == nil { continue }; polSet.Discard(wlID)] *)
Definition discardUser `{Countable K} (wlID : WorkloadEndpointID)
    (idx : gmap K (gset WorkloadEndpointID)) (k : K) : gmap K (gset WorkloadEndpointID) :=
  match idx !! k with
  | None => idx
  | Some polSet => <[k := polSet ∖ {[wlID]}]> idx
  end.

(** [if idx[k] == nil { idx[k] = set.New() }; idx[k].Add(wlID)] *)
Definition addUser `{Countable K} (wlID : WorkloadEndpointID)
    (idx : gmap K (gset WorkloadEndpointID)) (k : K) : gmap K (gset WorkloadEndpointID) :=
  match idx !! k with
  | None => <[k := {[wlID]}]> idx
  | Some polSet => <[k := {[wlID]} ∪ polSet]> idx
  end.

(** The loop over the tiers of a cached endpoint that discards [wlID] from
    the set of every ingress and egress policy; it appears verbatim in the
    update and in the remove handler. *)
Definition detachTier (wlID : WorkloadEndpointID) (m : bpfEndpointManager)
    (t : TierInfo) : bpfEndpointManager :=
  let m :=
    foldl (λ m pol,
             set_policiesToWorkloads
               (discardUser wlID (policiesToWorkloads m) (mkPolicyID (TierInfo_Name t) pol)) m)
          m (IngressPolicies t) in
  foldl (λ m pol,
           set_policiesToWorkloads
             (discardUser wlID (policiesToWorkloads m) (mkPolicyID (TierInfo_Name t) pol)) m)
        m (EgressPolicies t).

Definition detachTiers (wlID : WorkloadEndpointID) (tiers : list TierInfo)
    (m : bpfEndpointManager) : bpfEndpointManager :=
  foldl (detachTier wlID) m tiers.

(** The loop over [oldWL.ProfileIds] of the update handler. *)
Definition detachProfiles (wlID : WorkloadEndpointID) (profileIds : list string)
    (m : bpfEndpointManager) : bpfEndpointManager :=
  foldl (λ m profName,
           set_profilesToWorkloads
             (discardUser wlID (profilesToWorkloads m) (mkProfileID profName)) m)
        m profileIds.

(** The body of the loop over [wl.Tiers] of the update handler: the tier's
    ingress policies, its egress policies, and then, still inside the tier
    loop, all of [wl.ProfileIds]. *)
Definition attachTier (wlID : WorkloadEndpointID) (wl : WorkloadEndpoint)
    (m : bpfEndpointManager) (t : TierInfo) : bpfEndpointManager :=
  let m :=
    foldl (λ m pol,
             set_policiesToWorkloads
               (addUser wlID (policiesToWorkloads m) (mkPolicyID (TierInfo_Name t) pol)) m)
          m (IngressPolicies t) in
  let m :=
    foldl (λ m pol,
             set_policiesToWorkloads
               (addUser wlID (policiesToWorkloads m) (mkPolicyID (TierInfo_Name t) pol)) m)
          m (EgressPolicies t) in
  foldl (λ m profName,
           set_profilesToWorkloads
             (addUser wlID (profilesToWorkloads m) (mkProfileID profName)) m)
        m (ProfileIds wl).

Definition onWorkloadEndpointUpdate (m : bpfEndpointManager)
    (msg : WorkloadEndpointUpdate) : bpfEndpointManager :=
  let wlID := WorkloadEndpointUpdate_Id msg in
  let oldWL := wlEps m !! wlID in
  let wl := Endpoint msg in
  let m :=
    match oldWL with
    | Some oldWL => detachProfiles wlID (ProfileIds oldWL) (detachTiers wlID (Tiers oldWL) m)
    | None => m
    end in
  let m := set_wlEps (<[wlID := Endpoint msg]> (wlEps m)) m in
  let m := foldl (attachTier wlID wl) m (Tiers wl) in
  set_dirtyWorkloads ({[wlID]} ∪ dirtyWorkloads m) m.

(** [wl := m.wlEps[wlID]] is nil for an unknown id, and [wl.Tiers] then
    dereferences nil before anything is changed. *)
Definition onWorkloadEnpdointRemove (m : bpfEndpointManager)
    (msg : WorkloadEndpointRemove) : Result bpfEndpointManager :=
  let wlID := WorkloadEndpointRemove_Id msg in
  match wlEps m !! wlID with
  | None => Panic
  | Some wl =>
      let m := detachTiers wlID (Tiers wl) m in
      let m := set_wlEps (delete wlID (wlEps m)) m in
      Ok (set_dirtyWorkloads ({[wlID]} ∪ dirtyWorkloads m) m)
  end.

(** [wls.Iter] adds every item of the set to [dirtyWorkloads]. *)
Definition markPolicyUsersDirty (m : bpfEndpointManager) (id : PolicyID)
    : bpfEndpointManager :=
  match policiesToWorkloads m !! id with
  | None => m
  | Some wls => set_dirtyWorkloads (wls ∪ dirtyWorkloads m) m
  end.

Definition markProfileUsersDirty (m : bpfEndpointManager) (id : ProfileID)
    : bpfEndpointManager :=
  match profilesToWorkloads m !! id with
  | None => m
  | Some wls => set_dirtyWorkloads (wls ∪ dirtyWorkloads m) m
  end.

Definition onPolicyUpdate (m : bpfEndpointManager) (msg : ActivePolicyUpdate)
    : bpfEndpointManager :=
  let polID := ActivePolicyUpdate_Id msg in
  let m := set_policies (<[polID := ActivePolicyUpdate_Policy msg]> (policies m)) m in
  markPolicyUsersDirty m polID.

Definition onPolicyRemove (m : bpfEndpointManager) (msg : ActivePolicyRemove)
    : bpfEndpointManager :=
  let polID := ActivePolicyRemove_Id msg in
  let m := markPolicyUsersDirty m polID in
  let m := set_policies (delete polID (policies m)) m in
  set_policiesToWorkloads (delete polID (policiesToWorkloads m)) m.

Definition onProfileUpdate (m : bpfEndpointManager) (msg : ActiveProfileUpdate)
    : bpfEndpointManager :=
  let profID := ActiveProfileUpdate_Id msg in
  let m := set_profiles (<[profID := ActiveProfileUpdate_Profile msg]> (profiles m)) m in
  markProfileUsersDirty m profID.

Definition onProfileRemove (m : bpfEndpointManager) (msg : ActiveProfileRemove)
    : bpfEndpointManager :=
  let profID := ActiveProfileRemove_Id msg in
  let m := markProfileUsersDirty m profID in
  let m := set_profiles (delete profID (profiles m)) m in
  set_profilesToWorkloads (delete profID (profilesToWorkloads m)) m.

Definition OnUpdate (w : World) (m : bpfEndpointManager) (msg : Msg)
    : Result bpfEndpointManager :=
  match msg with
  | MsgIfaceUpdate msg => Ok (onInterfaceUpdate m msg)
  | MsgIfaceAddrsUpdate msg => Ok (onInterfaceAddrsUpdate w m msg)
  | MsgWorkloadEndpointUpdate msg => Ok (onWorkloadEndpointUpdate m msg)
  | MsgWorkloadEndpointRemove msg => onWorkloadEnpdointRemove m msg
  | MsgActivePolicyUpdate msg => Ok (onPolicyUpdate m msg)
  | MsgActivePolicyRemove msg => Ok (onPolicyRemove m msg)
  | MsgActiveProfileUpdate msg => Ok (onProfileUpdate m msg)
  | MsgActiveProfileRemove msg => Ok (onProfileRemove m msg)
  | MsgOther => Ok m
  end.

(** A finite sequence of dispatcher updates, one after the other. *)
Definition OnUpdates (w : World) (m : bpfEndpointManager) (msgs : list Msg)
    : Result bpfEndpointManager :=
  forM (OnUpdate w) m msgs.

(** ** The rule extractor *)

(** The body of the loop over a tier's directional policy names.
    [pol := m.policies[...]] is nil for an uncached policy, and
    [pol.InboundRules] reads a field through it. *)
Definition extractPolicy (m : bpfEndpointManager) (direction : PolDirection)
    (tier : TierInfo) (pols : list (list Rule)) (polName : string)
    : Result (list (list Rule)) :=
  match policies m !! mkPolicyID (TierInfo_Name tier) polName with
  | None => Panic
  | Some pol =>
      if decide (direction = PolDirnIngress)
      then Ok (pols ++ [Policy_InboundRules pol])
      else Ok (pols ++ [Policy_OutboundRules pol])
  end.

(** The body of the loop over the tiers; [continue] keeps [allRules]. *)
Definition extractTier (m : bpfEndpointManager) (direction : PolDirection)
    (allRules : list (list (list Rule))) (tier : TierInfo)
    : Result (list (list (list Rule))) :=
  let directionalPols :=
    if decide (direction = PolDirnEgress) then EgressPolicies tier
    else IngressPolicies tier in
  if decide (length directionalPols = 0%nat) then Ok allRules
  else
    pols ← forM (extractPolicy m direction tier) [] directionalPols;
    Ok (allRules ++ [pols]).

(** The body of the loop over the profile names, with the same read
    through a possibly nil pointer. *)
Definition extractProfile (m : bpfEndpointManager) (direction : PolDirection)
    (profs : list (list Rule)) (profName : string) : Result (list (list Rule)) :=
  match profiles m !! mkProfileID profName with
  | None => Panic
  | Some prof =>
      if decide (direction = PolDirnIngress)
      then Ok (profs ++ [Profile_InboundRules prof])
      else Ok (profs ++ [Profile_OutboundRules prof])
  end.

Definition extractRules (m : bpfEndpointManager) (tiers2 : list TierInfo)
    (profileNames : list string) (direction : PolDirection)
    : Result (list (list (list Rule))) :=
  allRules ← forM (extractTier m direction) [] tiers2;
  profs ← forM (extractProfile m direction) [] profileNames;
  Ok (allRules ++ [profs]).

(** ** Compile and attach *)

(** [bytes.Contains(b, subslice)] *)
Fixpoint Contains (b subslice : string) : bool :=
  String.prefix subslice b ||
  match b with
  | EmptyString => false
  | String _ b' => Contains b' subslice
  end.

(** The deferred sweep of the pinned maps runs on every exit path.  Of the
    log only the warnings and errors of the attach itself are kept. *)
Definition AttachTCProgram (w : World) (fname : string) (attachPoint : TCAttachPoint)
    : Result (list LogEntry * option error) :=
  let '(out, err) := tcFilterAdd w fname attachPoint in
  let ret :=
    match err with
    | Some e =>
        if Contains out "Cannot find device" then
          ([mkLogEntry LevelWarn
              "Failed to attach BPF program; interface not found.  Will retry if it show up."],
           None)
        else
          ([mkLogEntry LevelError "Failed to attach BPF program"], err)
    | None => ([], err)
    end in
  if repinJumpMaps w then Ok ret else Panic.

(** In the failure branch [pg, err := bpf.NewProgramGenerator(...)] declares
    a new [err] for that block; the [return err] that ends the block returns
    this one, which is nil once the dump has been written. *)
Definition compileAndAttachProgram (w : World) (m : bpfEndpointManager)
    (allRules : list (list (list Rule))) (attachPoint : TCAttachPoint)
    : Result (list LogEntry * option error) :=
  match TempDir w with
  | None => Panic
  | Some tempDir =>
      let oFileName := tempDir +:+ "/redir_tc.o" in
      let iface := ifaceOf m (Iface attachPoint) in
      err ← CompileTCProgramToFile w allRules attachPoint (head (addrs iface));
      match err with
      | Some _ => Ok ([], err)
      | None =>
          '(logs, err) ← AttachTCProgram w oFileName attachPoint;
          match err with
          | Some _ =>
              let logs := (logs ++ [mkLogEntry LevelError "Failed to attach BPF program"])%list in
              match dumpProgram w allRules with
              | Some _ => Panic
              | None as err' =>
                  Ok ((logs ++ [mkLogEntry LevelError "Dump of program"])%list, err')
              end
          | None => Ok (logs, None)
          end
      end
  end.

Definition compileAndAttachWorkloadProgram (w : World) (m : bpfEndpointManager)
    (endpoint : WorkloadEndpoint) (polDirection : PolDirection)
    : Result (list LogEntry * option error) :=
  rules ← extractRules m (Tiers endpoint) (ProfileIds endpoint) polDirection;
  ap ← calculateTCAttachPoint EpTypeWorkload polDirection (WorkloadEndpoint_Name endpoint);
  compileAndAttachProgram w m rules ap.

Definition compileAndAttachDataIfaceProgram (w : World) (m : bpfEndpointManager)
    (ifaceName : string) (polDirection : PolDirection)
    : Result (list LogEntry * option error) :=
  let rules := [[[ {| Action := "Allow" |} ]]] in
  let epType := if decide (ifaceName = "tunl0") then EpTypeTunnel else EpTypeHost in
  ap ← calculateTCAttachPoint epType polDirection ifaceName;
  compileAndAttachProgram w m rules ap.

Definition setAcceptLocal (w : World) (iface : string) (val : bool) : option error :=
  let numval := if val then "1" else "0" in
  let path := "/proc/sys/net/ipv4/conf/" +:+ iface +:+ "/accept_local" in
  writeProcSys w path numval.

(** ** Reconciliation *)

(** The goroutine started for one dirty data interface, up to the error it
    records.  [ensureQdisc] discards the results of its two tc calls. *)
Definition dataIfaceWorker (w : World) (m : bpfEndpointManager) (iface : string)
    : Result (option error) :=
  '(_, err) ← compileAndAttachDataIfaceProgram w m iface PolDirnIngress;
  err ← match err with
        | None =>
            '(_, err) ← compileAndAttachDataIfaceProgram w m iface PolDirnEgress;
            Ok err
        | Some _ => Ok err
        end;
  Ok match err with
     | None => setAcceptLocal w iface true
     | Some _ => err
     end.

(** [errs[key]]: nil for a key without an entry. *)
Definition errOf `{Countable K} (errs : gmap K (option error)) (key : K) : option error :=
  mjoin (errs !! key).

(** The workers run concurrently and the coordinator waits for all of them;
    every outcome here is a function of the worker's own item, so they are
    run one after the other in the order of the iteration.  A panic in a
    goroutine ends the process. *)
Definition applyProgramsToDirtyDataInterfaces (w : World) (m : bpfEndpointManager)
    : Result bpfEndpointManager :=
  '(dirty, errs) ←
    forM (λ '(dirty, errs) iface,
            if negb (dataIfaceRegex m iface) then Ok (dirty ∖ {[iface]}, errs)
            else if decide (epIface_State (ifaceOf m iface) ≠ StateUp)
            then Ok (dirty ∖ {[iface]}, errs)
            else
              err ← dataIfaceWorker w m iface;
              Ok (dirty, <[iface := err]> errs))
         (dirtyIfaces m, (∅ : gmap string (option error)))
         (elements (dirtyIfaces m));
  let dirty :=
    foldl (λ dirty iface,
             match errOf errs iface with
             | None => dirty ∖ {[iface]}
             | Some _ => dirty
             end)
          dirty (elements dirty) in
  Ok (set_dirtyIfaces dirty m).

(** Both directions are attached, each in its own goroutine. *)
Definition applyPolicy (w : World) (m : bpfEndpointManager) (wlID : WorkloadEndpointID)
    : Result (option error) :=
  match wlEps m !! wlID with
  | None => Ok None
  | Some wep =>
      '(_, ingressErr) ← compileAndAttachWorkloadProgram w m wep PolDirnIngress;
      '(_, egressErr) ← compileAndAttachWorkloadProgram w m wep PolDirnEgress;
      Ok match ingressErr with
         | Some _ => ingressErr
         | None => egressErr
         end
  end.

Definition applyProgramsToDirtyWorkloadEndpoints (w : World) (m : bpfEndpointManager)
    : Result bpfEndpointManager :=
  errs ←
    forM (λ errs wlID,
            err ← applyPolicy w m wlID;
            Ok (<[wlID := err]> errs))
         (∅ : gmap WorkloadEndpointID (option error))
         (elements (dirtyWorkloads m));
  let dirty :=
    foldl (λ dirty wlID,
             match errOf errs wlID with
             | None => dirty ∖ {[wlID]}
             | Some _ => dirty
             end)
          (dirtyWorkloads m) (elements (dirtyWorkloads m)) in
  Ok (set_dirtyWorkloads dirty m).

Definition CompleteDeferredWork (w : World) (m : bpfEndpointManager)
    : Result bpfEndpointManager :=
  m ← applyProgramsToDirtyDataInterfaces w m;
  applyProgramsToDirtyWorkloadEndpoints w m.

(** ** Vocabulary of the statements *)

(** The policy list of a tier that the extractor reads for a direction. *)
Definition directionalPolicies (direction : PolDirection) (tier : TierInfo) : list string :=
  match direction with
  | PolDirnIngress => IngressPolicies tier
  | PolDirnEgress => EgressPolicies tier
  end.

Definition policyRules (direction : PolDirection) (pol : Policy) : list Rule :=
  match direction with
  | PolDirnIngress => Policy_InboundRules pol
  | PolDirnEgress => Policy_OutboundRules pol
  end.

Definition profileRules (direction : PolDirection) (prof : Profile) : list Rule :=
  match direction with
  | PolDirnIngress => Profile_InboundRules prof
  | PolDirnEgress => Profile_OutboundRules prof
  end.

(** The hook and the to-or-from value the specification tabulates. *)
Definition oppositeHook (d : PolDirection) : TCHook :=
  match d with PolDirnIngress => TCHookEgress | PolDirnEgress => TCHookIngress end.
Definition sameHook (d : PolDirection) : TCHook :=
  match d with PolDirnIngress => TCHookIngress | PolDirnEgress => TCHookEgress end.

(** The (tier, policy) edges a list of tiers declares, in the order the
    handlers visit them. *)
Definition tierEdges (t : TierInfo) : list PolicyID :=
  (mkPolicyID (TierInfo_Name t) <$> IngressPolicies t) ++
  (mkPolicyID (TierInfo_Name t) <$> EgressPolicies t).

Definition policyEdges (tiers : list TierInfo) : list PolicyID :=
  tiers ≫= tierEdges.

Definition profileEdges (profileIds : list string) : list ProfileID :=
  mkProfileID <$> profileIds.

(** An endpoint references policy [p] in some tier, ingress or egress. *)
Definition refsPolicy (wl : WorkloadEndpoint) (p : PolicyID) : Prop :=
  ∃ t, t ∈ Tiers wl ∧ PolicyID_Tier p = TierInfo_Name t ∧
       (PolicyID_Name p ∈ IngressPolicies t ∨ PolicyID_Name p ∈ EgressPolicies t).

Definition refsProfile (wl : WorkloadEndpoint) (q : ProfileID) : Prop :=
  ProfileID_Name q ∈ ProfileIds wl.

(** The endpoint cached for [id] references the policy, the profile. *)
Definition cachedRefsPolicy (m : bpfEndpointManager) (id : WorkloadEndpointID)
    (p : PolicyID) : Prop :=
  ∃ wl, wlEps m !! id = Some wl ∧ refsPolicy wl p.

Definition cachedRefsProfile (m : bpfEndpointManager) (id : WorkloadEndpointID)
    (q : ProfileID) : Prop :=
  ∃ wl, wlEps m !! id = Some wl ∧ refsProfile wl q.

(** The set an index holds for a key; a key without entry has no users. *)
Definition usersOf `{Countable K} (idx : gmap K (gset WorkloadEndpointID)) (k : K)
    : gset WorkloadEndpointID :=
  default ∅ (idx !! k).

(** Every user an index lists for a policy is an endpoint whose cached
    version references it. *)
Definition policyIndexSound (m : bpfEndpointManager) : Prop :=
  ∀ p id, id ∈ usersOf (policiesToWorkloads m) p → cachedRefsPolicy m id p.

(** Every endpoint whose cached version references [p] is listed for it. *)
Definition policyIndexComplete (m : bpfEndpointManager) (p : PolicyID) : Prop :=
  ∀ id, cachedRefsPolicy m id p → id ∈ usersOf (policiesToWorkloads m) p.

(** ** Concrete scenarios *)

Module Scenario.

Definition wl1 : WorkloadEndpointID := mkWorkloadEndpointID "k8s" "default/pod1" "eth0".
Definition polX : PolicyID := mkPolicyID "tierA" "polX".
Definition prof1 : ProfileID := mkProfileID "prof1".
Definition R1 : Rule := {| Action := "Allow" |}.
Definition R2 : Rule := {| Action := "Deny" |}.

(** One tier with an ingress policy, one profile. *)
Definition epA : WorkloadEndpoint :=
  {| WorkloadEndpoint_Name := "cali1";
     Tiers := [ {| TierInfo_Name := "tierA"; IngressPolicies := ["polX"];
                   EgressPolicies := [] |} ];
     ProfileIds := ["prof1"] |}.

(** No policy selects the endpoint: no tier, one profile. *)
Definition epB : WorkloadEndpoint :=
  {| WorkloadEndpoint_Name := "cali1"; Tiers := []; ProfileIds := ["prof1"] |}.

(** A tier whose lists are both empty, one profile. *)
Definition epC : WorkloadEndpoint :=
  {| WorkloadEndpoint_Name := "cali1";
     Tiers := [ {| TierInfo_Name := "tierA"; IngressPolicies := [];
                   EgressPolicies := [] |} ];
     ProfileIds := ["prof1"] |}.

Definition polX_v1 : Policy :=
  {| Policy_InboundRules := [R1]; Policy_OutboundRules := [] |}.
Definition prof1_v1 : Profile :=
  {| Profile_InboundRules := [R2]; Profile_OutboundRules := [R1] |}.

(** A world in which every external step succeeds. *)
Definition calm : World :=
  {| parseIPv4 := λ _, None;
     TempDir := Some "/tmp/calico-compile1";
     CompileTCProgramToFile := λ _ _ _, Ok None;
     tcFilterAdd := λ _ _, ("", None);
     repinJumpMaps := true;
     dumpProgram := λ _, None;
     writeProcSys := λ _ _, None |}.

(** tc fails on every call with the given output. *)
Definition tcFails (out : string) : World :=
  {| parseIPv4 := λ _, None;
     TempDir := Some "/tmp/calico-compile1";
     CompileTCProgramToFile := λ _ _ _, Ok None;
     tcFilterAdd := λ _ _, (out, Some "exit status 2");
     repinJumpMaps := true;
     dumpProgram := λ _, None;
     writeProcSys := λ _ _, None |}.

(** clang fails on every call. *)
Definition compileFails : World :=
  {| parseIPv4 := λ _, None;
     TempDir := Some "/tmp/calico-compile1";
     CompileTCProgramToFile := λ _ _ _, Ok (Some "exit status 1");
     tcFilterAdd := λ _ _, ("", None);
     repinJumpMaps := true;
     dumpProgram := λ _, None;
     writeProcSys := λ _ _, None |}.

Definition ethPattern (name : string) : bool := String.prefix "eth" name.

Definition fresh : bpfEndpointManager := newBPFEndpointManager ethPattern.

Definition updA : Msg := MsgWorkloadEndpointUpdate (mkWorkloadEndpointUpdate wl1 epA).
Definition updB : Msg := MsgWorkloadEndpointUpdate (mkWorkloadEndpointUpdate wl1 epB).
Definition updC : Msg := MsgWorkloadEndpointUpdate (mkWorkloadEndpointUpdate wl1 epC).
Definition rmWl1 : Msg := MsgWorkloadEndpointRemove (mkWorkloadEndpointRemove wl1).
Definition updPolX : Msg := MsgActivePolicyUpdate (mkActivePolicyUpdate polX polX_v1).
Definition rmPolX : Msg := MsgActivePolicyRemove (mkActivePolicyRemove polX).
Definition updProf1 : Msg := MsgActiveProfileUpdate (mkActiveProfileUpdate prof1 prof1_v1).
Definition rmProf1 : Msg := MsgActiveProfileRemove (mkActiveProfileRemove prof1).
Definition eth0Up : Msg := MsgIfaceUpdate (mkIfaceUpdate "eth0" StateUp).

(** The manager after endpoint [wl1] was added as [epA]. *)
Definition afterA : bpfEndpointManager :=
  onWorkloadEndpointUpdate fresh (mkWorkloadEndpointUpdate wl1 epA).

(** The policy and the profile are announced, then the endpoint. *)
Definition afterPolProfA : bpfEndpointManager :=
  onWorkloadEndpointUpdate
    (onPolicyUpdate
       (onProfileUpdate fresh (mkActiveProfileUpdate prof1 prof1_v1))
       (mkActivePolicyUpdate polX polX_v1))
    (mkWorkloadEndpointUpdate wl1 epA).

(** The profile is announced, then an endpoint whose only tier has no
    policy in either direction. *)
Definition afterProfC : bpfEndpointManager :=
  onWorkloadEndpointUpdate
    (onProfileUpdate fresh (mkActiveProfileUpdate prof1 prof1_v1))
    (mkWorkloadEndpointUpdate wl1 epC).

(** The manager once interface eth0 has come up. *)
Definition afterEth0Up : bpfEndpointManager :=
  onInterfaceUpdate fresh (mkIfaceUpdate "eth0" StateUp).

End Scenario.

(** ** The compiler and tc command lines *)

(** The formatting verbs the options use: [%v] of a bool, [%d] of an
    integer (also [fmt.Sprint] of an int), [%02x] of a byte. *)
Definition fmt_v_bool (b : bool) : string := if b then "true" else "false".

Definition fmt_d (n : Z) : string := pretty n.

Definition hexDigit (n : Z) : ascii :=
  match n with
  | 0 => "0" | 1 => "1" | 2 => "2" | 3 => "3" | 4 => "4" | 5 => "5" | 6 => "6" | 7 => "7"
  | 8 => "8" | 9 => "9" | 10 => "a" | 11 => "b" | 12 => "c" | 13 => "d" | 14 => "e"
  | _ => "f"
  end%char.

Definition fmt_02x (b : Z) : string :=
  String (hexDigit (b / 16)) (String (hexDigit (b mod 16)) EmptyString).

(** [net.IP.To4]: a 4-byte address is returned as it is, a 16-byte address
    with the IPv4-in-IPv6 prefix gives its last four bytes, anything else
    nil. *)
Definition To4 (ip : IP) : option IP :=
  if decide (length ip = 4%nat) then Some ip
  else if decide (length ip = 16%nat ∧ take 10 ip = replicate 10 0 ∧
                  ip !! 10%nat = Some 255 ∧ ip !! 11%nat = Some 255)
  then Some (take 4 (drop 12 ip))
  else None.

(** The conversion [uint16(n)] of an int. *)
Definition uint16 (n : Z) : Z := n mod 65536.

Record compileTCOpts := mkCompileTCOpts {
  extraArgs : list string;
  dir : string;
  srcFile : string;
  outFile : string;
  bpftool : bool;
}.

(** A [CompileTCOption] is a function on a pointer to the options: the
    update it performs. *)
Definition CompileTCOption : Type := compileTCOpts → compileTCOpts.

Definition appendExtraArg (o : compileTCOpts) (a : string) : compileTCOpts :=
  {| extraArgs := extraArgs o ++ [a]; dir := dir o; srcFile := srcFile o;
     outFile := outFile o; bpftool := bpftool o |}.

Definition CompileWithEndpointToHostDrop (drop : bool) : CompileTCOption :=
  λ opts, appendExtraArg opts ("-DCALI_DROP_WORKLOAD_TO_HOST=" +:+ fmt_v_bool drop).

Definition CompileWithDefine (name : string) : CompileTCOption :=
  λ opts, appendExtraArg opts ("-D" +:+ name).

Definition CompileWithDefineValue (name value : string) : CompileTCOption :=
  λ opts, appendExtraArg opts ("-D" +:+ name +:+ "=" +:+ value).

Definition CompileWithEntrypointName (name : string) : CompileTCOption :=
  CompileWithDefineValue "CALI_ENTRYPOINT_NAME" name.

Definition CompileWithIncludePath (p : string) : CompileTCOption :=
  λ opts, appendExtraArg opts ("-I" +:+ p).

Definition CompileWithFIBEnabled (enabled : bool) : CompileTCOption :=
  λ opts, appendExtraArg opts ("-DCALI_FIB_LOOKUP_ENABLED=" +:+ fmt_v_bool enabled).

Definition CompileWithLogLevel (level : string) : CompileTCOption :=
  λ opts, appendExtraArg opts ("-DCALI_LOG_LEVEL=CALI_LOG_LEVEL_" +:+ level).

Definition CompileWithLogPrefix (prefix : string) : CompileTCOption :=
  λ opts, appendExtraArg opts ("-DCALI_LOG_PFX=" +:+ prefix).

Definition CompileWithSourceName (f : string) : CompileTCOption :=
  λ opts, {| extraArgs := extraArgs opts; dir := dir opts; srcFile := f;
             outFile := outFile opts; bpftool := bpftool opts |}.

Definition CompileWithOutputName (f : string) : CompileTCOption :=
  λ opts, {| extraArgs := extraArgs opts; dir := dir opts; srcFile := srcFile opts;
             outFile := f; bpftool := bpftool opts |}.

Definition CompileWithWorkingDir (d : string) : CompileTCOption :=
  λ opts, {| extraArgs := extraArgs opts; dir := d; srcFile := srcFile opts;
             outFile := outFile opts; bpftool := bpftool opts |}.

Definition CompileWithBpftoolLoader : CompileTCOption :=
  λ opts, {| extraArgs := extraArgs opts; dir := dir opts; srcFile := srcFile opts;
             outFile := outFile opts; bpftool := true |}.

(** [ipv4[3], ipv4[2], ipv4[1], ipv4[0]], each through [%02x]. *)
Definition CompileWithHostIP (ip : IP) : CompileTCOption :=
  match To4 ip with
  | None => CompileWithDefineValue "CALI_HOST_IP" "bad-host-ip"
  | Some ipv4 =>
      CompileWithDefineValue "CALI_HOST_IP"
        ("0x" +:+ fmt_02x (ipv4 !!! 3%nat) +:+ fmt_02x (ipv4 !!! 2%nat) +:+
         fmt_02x (ipv4 !!! 1%nat) +:+ fmt_02x (ipv4 !!! 0%nat))
  end.

Definition CompileWithVxlanPort (port : Z) : CompileTCOption :=
  CompileWithDefineValue "CALI_VXLAN_PORT" (fmt_d port).

Definition CompileWithNATTunnelMTU (mtu : Z) : CompileTCOption :=
  CompileWithDefineValue "CALI_NAT_TUNNEL_MTU" (fmt_d mtu).

Definition CompileWithFlags (flags : Z) : CompileTCOption :=
  CompileWithDefineValue "CALI_COMPILE_FLAGS" (fmt_d flags).

(** The first part of [CompileTCProgramToFile]: the defaults, with the
    options applied in order. *)
Definition compileOptsOf (opts : list CompileTCOption) : compileTCOpts :=
  foldl (λ compileOpts o, o compileOpts)
        {| extraArgs := []; dir := "/code/bpf/xdp";
           srcFile := "/code/bpf/xdp/redir_tc.c"; outFile := "/tmp/redir_tc.o";
           bpftool := false |}
        opts.

(** The argument vector [CompileTCProgramToFile] runs clang with, and the
    one of llc. *)
Definition clangArgs (compileOpts : compileTCOpts) : list string :=
  let args := ["-x"; "c"; "-D__KERNEL__"; "-D__ASM_SYSREG_H"] in
  let args := if bpftool compileOpts then args ++ ["-D__BPFTOOL_LOADER__"] else args in
  let args := args ++ extraArgs compileOpts in
  args ++ ["-I" +:+ dir compileOpts;
           "-Wno-unused-value";
           "-Wno-pointer-sign";
           "-Wno-compare-distinct-pointer-types";
           "-Wunused";
           "-Wall";
           "-Werror";
           "-fno-stack-protector";
           "-O2";
           "-emit-llvm";
           "-c"; "-"; "-o"; "-"].

Definition llcArgs (compileOpts : compileTCOpts) : list string :=
  ["-march=bpf"; "-filetype=obj"; "-o"; outFile compileOpts].

(** The configuration fields of the manager that [bpfEndpointManager]
    above leaves out; they only reach the compiler options. *)
Record compileConfig := mkCompileConfig {
  bpfLogLevel : string;
  fibLookupEnabled : bool;
  epToHostDrop : bool;
  natTunnelMTU : Z;
}.

(** The option list [compileAndAttachProgram] builds for an attach point.
    [ToUpper] is [strings.ToUpper] and [BPF_LOG_PFX] the value of that
    environment variable. *)
Definition compileOptions (ToUpper : string → string) (BPF_LOG_PFX : string)
    (cfg : compileConfig) (m : bpfEndpointManager) (tempDir : string)
    (attachPoint : TCAttachPoint) : list CompileTCOption :=
  let srcDir := "/code/bpf/xdp" in
  let srcFileName := srcDir +:+ "/redir_tc.c" in
  let oFileName := tempDir +:+ "/redir_tc.o" in
  let logLevel := ToUpper (bpfLogLevel cfg) in
  let logLevel := if decide (logLevel = "") then "OFF" else logLevel in
  let logPfx := BPF_LOG_PFX +:+ Iface attachPoint in
  let opts :=
    [ CompileWithWorkingDir srcDir;
      CompileWithSourceName srcFileName;
      CompileWithOutputName oFileName;
      CompileWithFIBEnabled (fibLookupEnabled cfg);
      CompileWithLogLevel logLevel;
      CompileWithLogPrefix logPfx;
      CompileWithEndpointToHostDrop (epToHostDrop cfg);
      CompileWithNATTunnelMTU (uint16 (natTunnelMTU cfg));
      CompileWithEntrypointName (Section_ attachPoint);
      CompileWithFlags (CompileFlags attachPoint) ] in
  let iface := ifaceOf m (Iface attachPoint) in
  match addrs iface with
  | [] => opts
  | ip :: _ => opts ++ [CompileWithHostIP ip]
  end.

(** The argument vector of the tc call in [AttachTCProgram]. *)
Definition tcFilterArgs (fname : string) (attachPoint : TCAttachPoint) : list string :=
  ["filter"; "add"; "dev"; Iface attachPoint;
   TCHook_string (Hook attachPoint);
   "bpf"; "da"; "obj"; fname;
   "sec"; Section_ attachPoint].

(** ** More vocabulary *)

(** The value of a string of hexadecimal digits, most significant first. *)
Definition hexDigitValue (c : ascii) : option Z :=
  Z.of_nat <$> String.index 0 (String c EmptyString) "0123456789abcdef".

Fixpoint hexValueFrom (acc : Z) (s : string) : option Z :=
  match s with
  | EmptyString => Some acc
  | String c s' =>
      match hexDigitValue c with
      | Some v => hexValueFrom (acc * 16 + v) s'
      | None => None
      end
  end.

Definition hexValue (s : string) : option Z := hexValueFrom 0 s.

(** The 32-bit number whose little-endian bytes are the four of an address. *)
Definition littleEndian32 (a b c d : Z) : Z :=
  a + 256 * b + 65536 * c + 16777216 * d.

(** The rule lists of a tier's directional policies, when all are cached. *)
Definition tierRules (m : bpfEndpointManager) (direction : PolDirection)
    (tier : TierInfo) : option (list (list Rule)) :=
  mapM (λ polName,
          policyRules direction <$>
            policies m !! mkPolicyID (TierInfo_Name tier) polName)
       (directionalPolicies direction tier).

(** The rule lists of the profiles, when all are cached. *)
Definition profilesRules (m : bpfEndpointManager) (direction : PolDirection)
    (profileNames : list string) : option (list (list Rule)) :=
  mapM (λ profName, profileRules direction <$> profiles m !! mkProfileID profName)
       profileNames.

(** The tiers whose directional policy list is not empty. *)
Definition activeTiers (direction : PolDirection) (tiers : list TierInfo) : list TierInfo :=
  filter (λ t, directionalPolicies direction t ≠ []) tiers.

(** The tree of the specification: one entry per tier with a non-empty
    directional list, then the profiles tier. *)
Definition rulesTree (m : bpfEndpointManager) (tiers : list TierInfo)
    (profileNames : list string) (direction : PolDirection)
    : option (list (list (list Rule))) :=
  tierTrees ← mapM (tierRules m direction) (activeTiers direction tiers);
  profs ← profilesRules m direction profileNames;
  Some (tierTrees ++ [profs]).

(** Everything the extractor reads for an endpoint is cached. *)
Definition rulesCached (m : bpfEndpointManager) (tiers : list TierInfo)
    (profileNames : list string) (direction : PolDirection) : Prop :=
  (∀ tier polName, tier ∈ tiers → polName ∈ directionalPolicies direction tier →
                   is_Some (policies m !! mkPolicyID (TierInfo_Name tier) polName)) ∧
  (∀ profName, profName ∈ profileNames → is_Some (profiles m !! mkProfileID profName)).

(** The endpoint an update or remove message is about, and the interface
    an interface message marks. *)
Definition msgEndpoint (msg : Msg) : option WorkloadEndpointID :=
  match msg with
  | MsgWorkloadEndpointUpdate u => Some (WorkloadEndpointUpdate_Id u)
  | MsgWorkloadEndpointRemove u => Some (WorkloadEndpointRemove_Id u)
  | _ => None
  end.

Definition msgIface (msg : Msg) : option string :=
  match msg with
  | MsgIfaceUpdate u => Some (ifaceUpdate_Name u)
  | MsgIfaceAddrsUpdate u =>
      match Addrs u with
      | Some _ => Some (ifaceAddrsUpdate_Name u)
      | None => None
      end
  | _ => None
  end.

(** The two entry points the dataplane loop calls on the manager, in any
    order; each reconciliation meets the outside world as it then is. *)
Inductive Call :=
| CallOnUpdate (msg : Msg)
| CallCompleteDeferredWork (w : World).

Definition call (w : World) (m : bpfEndpointManager) (c : Call) : Result bpfEndpointManager :=
  match c with
  | CallOnUpdate msg => OnUpdate w m msg
  | CallCompleteDeferredWork w' => CompleteDeferredWork w' m
  end.

Definition calls (w : World) (m : bpfEndpointManager) (cs : list Call)
    : Result bpfEndpointManager :=
  forM (call w) m cs.

(** Some message of the run upserted endpoint [id], and no message after
    it removed policy [p]. *)
Definition upsertedSinceRemove (msgs : list Msg) (id : WorkloadEndpointID)
    (p : PolicyID) : Prop :=
  ∃ pre u post,
    msgs = pre ++ MsgWorkloadEndpointUpdate u :: post ∧
    WorkloadEndpointUpdate_Id u = id ∧
    MsgActivePolicyRemove (mkActivePolicyRemove p) ∉ post.

(** Every remove of policy [p] in the run from [m] arrives while no cached
    endpoint references [p]. *)
Definition removesUnreferenced (w : World) (m : bpfEndpointManager) (msgs : list Msg)
    (p : PolicyID) : Prop :=
  ∀ pre post m1,
    msgs = pre ++ MsgActivePolicyRemove (mkActivePolicyRemove p) :: post →
    OnUpdates w m pre = Ok m1 →
    ∀ id, ¬ cachedRefsPolicy m1 id p.

(** ** More scenarios *)

Module Fixture.

(** eth0 is up and dirty, and so is the uncached endpoint [wl1]. *)
Definition eth0AndGhost : bpfEndpointManager :=
  set_dirtyWorkloads {[Scenario.wl1]} Scenario.afterEth0Up.

(** The same with both dirty sets drained. *)
Definition allClean : bpfEndpointManager :=
  set_dirtyWorkloads ∅ (set_dirtyIfaces ∅ eth0AndGhost).

(** Profile, policy and endpoint were announced and a reconciliation has
    drained the dirty sets. *)
Definition reconciled : bpfEndpointManager :=
  set_dirtyWorkloads ∅ (set_dirtyIfaces ∅ Scenario.afterPolProfA).

(** The manager after [wl1], added as [epA], was removed again. *)
Definition afterARemoved : bpfEndpointManager :=
  set_dirtyWorkloads ({[Scenario.wl1]} ∪ dirtyWorkloads Scenario.afterA)
    (set_wlEps (delete Scenario.wl1 (wlEps Scenario.afterA))
       (detachTiers Scenario.wl1 (Tiers Scenario.epA) Scenario.afterA)).

(** Policy polX is announced, removed while nothing references it and
    announced again; then the profile and the endpoint arrive. *)
Definition orderedRun : list Msg :=
  [Scenario.updPolX; Scenario.rmPolX; Scenario.updPolX; Scenario.updProf1; Scenario.updA].

Definition afterOrderedRun : bpfEndpointManager :=
  onWorkloadEndpointUpdate
    (onProfileUpdate
       (onPolicyUpdate
          (onPolicyRemove
             (onPolicyUpdate Scenario.fresh
                (mkActivePolicyUpdate Scenario.polX Scenario.polX_v1))
             (mkActivePolicyRemove Scenario.polX))
          (mkActivePolicyUpdate Scenario.polX Scenario.polX_v1))
       (mkActiveProfileUpdate Scenario.prof1 Scenario.prof1_v1))
    (mkWorkloadEndpointUpdate Scenario.wl1 Scenario.epA).

(** An endpoint with two tiers, two policies in the first. *)
Definition epTwoTiers : WorkloadEndpoint :=
  {| WorkloadEndpoint_Name := "cali2";
     Tiers := [ {| TierInfo_Name := "tierA"; IngressPolicies := ["polX"; "polY"];
                   EgressPolicies := [] |};
                {| TierInfo_Name := "tierB"; IngressPolicies := [];
                   EgressPolicies := ["polZ"] |} ];
     ProfileIds := ["prof1"] |}.

(** A manager that has the three policies of [epTwoTiers] and its profile
    in the caches. *)
Definition twoTiersCached : bpfEndpointManager :=
  onProfileUpdate
    (onPolicyUpdate
       (onPolicyUpdate
          (onPolicyUpdate Scenario.fresh
             (mkActivePolicyUpdate (mkPolicyID "tierA" "polX") Scenario.polX_v1))
          (mkActivePolicyUpdate (mkPolicyID "tierA" "polY")
             {| Policy_InboundRules := [Scenario.R2]; Policy_OutboundRules := [] |}))
       (mkActivePolicyUpdate (mkPolicyID "tierB" "polZ")
          {| Policy_InboundRules := []; Policy_OutboundRules := [Scenario.R1] |}))
    (mkActiveProfileUpdate Scenario.prof1 Scenario.prof1_v1).

Definition config : compileConfig :=
  {| bpfLogLevel := "debug"; fibLookupEnabled := true; epToHostDrop := false;
     natTunnelMTU := 1440 |}.

End Fixture.

(** ** Properties *)

(** *** Section names, flags and the attach point *)

(** C1: for every endpoint kind and to-or-from value the section name is
    calico_<from-or-to>_<kind>_ep, and the flags the table binds to it are
    workload/from 0, workload/to 2, host/from 3, host/to 1, tunnel/from 7 and
    tunnel/to 5, the bits being HOSTEP=1, INGRESS=2, TUNNEL=4, CGROUP=8; the
    table has no other entry. *)
Theorem section_name_flags_contract :
  (CompileFlagHostEp = 1 ∧ CompileFlagIngress = 2 ∧
   CompileFlagTunnel = 4 ∧ CompileFlagCgroup = 8) ∧
  (BPFSectionName EpTypeWorkload FromEp = "calico_from_workload_ep" ∧
   BPFSectionToFlags (BPFSectionName EpTypeWorkload FromEp) = Ok 0) ∧
  (BPFSectionName EpTypeWorkload ToEp = "calico_to_workload_ep" ∧
   BPFSectionToFlags (BPFSectionName EpTypeWorkload ToEp) = Ok 2 ∧
   2 = CompileFlagIngress) ∧
  (BPFSectionName EpTypeHost FromEp = "calico_from_host_ep" ∧
   BPFSectionToFlags (BPFSectionName EpTypeHost FromEp) = Ok 3 ∧
   3 = Z.lor CompileFlagHostEp CompileFlagIngress) ∧
  (BPFSectionName EpTypeHost ToEp = "calico_to_host_ep" ∧
   BPFSectionToFlags (BPFSectionName EpTypeHost ToEp) = Ok 1 ∧
   1 = CompileFlagHostEp) ∧
  (BPFSectionName EpTypeTunnel FromEp = "calico_from_tunnel_ep" ∧
   BPFSectionToFlags (BPFSectionName EpTypeTunnel FromEp) = Ok 7 ∧
   7 = Z.lor (Z.lor CompileFlagHostEp CompileFlagIngress) CompileFlagTunnel) ∧
  (BPFSectionName EpTypeTunnel ToEp = "calico_to_tunnel_ep" ∧
   BPFSectionToFlags (BPFSectionName EpTypeTunnel ToEp) = Ok 5 ∧
   5 = Z.lor CompileFlagHostEp CompileFlagTunnel) ∧
  size bpfSectionToFlags = 6%nat.
Proof. repeat split; vm_compute; reflexivity. Qed.

(** C2: for every interface name and policy direction the calculator picks
    the hook opposite to the policy direction for a workload endpoint and
    the hook equal to it for a host or tunnel endpoint; the to-or-from value
    that names the section is From exactly when the hook is Ingress. *)
Theorem attach_point_hook (endpointType : EndpointType)
    (policyDirection : PolDirection) (ifaceName : string) :
  ∃ ap toOrFrom,
    calculateTCAttachPoint endpointType policyDirection ifaceName = Ok ap ∧
    Hook ap = (if decide (endpointType = EpTypeWorkload)
               then oppositeHook policyDirection
               else sameHook policyDirection) ∧
    Section_ ap = BPFSectionName endpointType toOrFrom ∧
    (toOrFrom = FromEp ↔ Hook ap = TCHookIngress) ∧
    Iface ap = ifaceName.
Proof.
  destruct endpointType, policyDirection; eexists;
    first
      [ solve [ exists FromEp; split; [vm_compute; reflexivity|];
                cbn; repeat split; congruence ]
      | solve [ exists ToEp; split; [vm_compute; reflexivity|];
                cbn; repeat split; congruence ] ].
Qed.

(** *** The remove handler and unknown ids *)

(** C10: the remove handler returns only when the id has a cached endpoint;
    for an id absent from the endpoint cache it dereferences nil and panics
    instead of doing nothing. *)
Theorem remove_unknown_id_panics (m : bpfEndpointManager) (msg : WorkloadEndpointRemove) :
  (onWorkloadEnpdointRemove m msg = Panic ↔
   wlEps m !! WorkloadEndpointRemove_Id msg = None) ∧
  ((∃ m', onWorkloadEnpdointRemove m msg = Ok m') ↔
   is_Some (wlEps m !! WorkloadEndpointRemove_Id msg)).
Proof.
  unfold onWorkloadEnpdointRemove.
  destruct (wlEps m !! WorkloadEndpointRemove_Id msg) as [wl|] eqn:Hwl.
  - split; [split; done|]. split; [eauto|]. intros _. eauto.
  - split; [done|]. split; [intros [m' ?]; done|]. intros [? ?]; done.
Qed.

(** *** The rule extractor *)

Lemma directionalPols_eq (direction : PolDirection) (tier : TierInfo) :
  (if decide (direction = PolDirnEgress) then EgressPolicies tier
   else IngressPolicies tier) = directionalPolicies direction tier.
Proof. by destruct direction. Qed.

Lemma extractTier_empty m direction allRules tier :
  directionalPolicies direction tier = [] →
  extractTier m direction allRules tier = Ok allRules.
Proof.
  intros Hempty. unfold extractTier.
  rewrite directionalPols_eq, Hempty. done.
Qed.

Lemma extractTiers_all_empty m direction allRules tiers :
  Forall (λ t, directionalPolicies direction t = []) tiers →
  forM (extractTier m direction) allRules tiers = Ok allRules.
Proof.
  induction 1 as [|t tiers Ht _ IH]; [done|].
  cbn. rewrite extractTier_empty by done. exact IH.
Qed.

Lemma extractProfile_cached m direction profs profName prof :
  profiles m !! mkProfileID profName = Some prof →
  extractProfile m direction profs profName = Ok (profs ++ [profileRules direction prof]).
Proof. intros Hprof. unfold extractProfile. rewrite Hprof. by destruct direction. Qed.

Lemma extractProfiles_cached m direction profileNames :
  (∀ profName, profName ∈ profileNames → is_Some (profiles m !! mkProfileID profName)) →
  ∀ acc, ∃ profs,
    forM (extractProfile m direction) acc profileNames = Ok (acc ++ profs) ∧
    Forall2 (λ profName rules,
               ∃ prof, profiles m !! mkProfileID profName = Some prof ∧
                       rules = profileRules direction prof)
            profileNames profs.
Proof.
  induction profileNames as [|profName names IH]; intros Hcached acc.
  - exists []. split; [by rewrite app_nil_r|constructor].
  - destruct (Hcached profName) as [prof Hprof]; [left|].
    destruct (IH (λ n Hn, Hcached n (list_elem_of_further _ _ _ Hn))
                 (acc ++ [profileRules direction prof])) as (profs & Hrun & Hall).
    exists (profileRules direction prof :: profs). split.
    + cbn. rewrite (extractProfile_cached _ _ _ _ prof) by done. cbn.
      rewrite Hrun. by rewrite <- app_assoc.
    + constructor; eauto.
Qed.

Lemma extractPolicy_absent m direction tier polName acc :
  policies m !! mkPolicyID (TierInfo_Name tier) polName = None →
  extractPolicy m direction tier acc polName = Panic.
Proof. intros Habsent. unfold extractPolicy. by rewrite Habsent. Qed.

Lemma extractPolicies_absent m direction tier polName pols :
  polName ∈ pols →
  policies m !! mkPolicyID (TierInfo_Name tier) polName = None →
  ∀ acc, forM (extractPolicy m direction tier) acc pols = Panic.
Proof.
  intros Hin Habsent. induction pols as [|other pols IH]; intros acc.
  { by apply elem_of_nil in Hin. }
  cbn. apply elem_of_cons in Hin as [<-|Hin].
  - by rewrite extractPolicy_absent.
  - destruct (extractPolicy m direction tier acc other); cbn; [by apply IH|done].
Qed.

Lemma extractTier_absent m direction tier polName acc :
  polName ∈ directionalPolicies direction tier →
  policies m !! mkPolicyID (TierInfo_Name tier) polName = None →
  extractTier m direction acc tier = Panic.
Proof.
  intros Hpol Habsent. unfold extractTier. rewrite directionalPols_eq.
  destruct (decide _) as [Hlen|_].
  - apply nil_length_inv in Hlen. rewrite Hlen in Hpol. by apply elem_of_nil in Hpol.
  - by rewrite (extractPolicies_absent _ _ _ polName).
Qed.

Lemma extractTiers_absent m direction tiers tier polName :
  tier ∈ tiers →
  polName ∈ directionalPolicies direction tier →
  policies m !! mkPolicyID (TierInfo_Name tier) polName = None →
  ∀ acc, forM (extractTier m direction) acc tiers = Panic.
Proof.
  intros Hin Hpol Habsent. induction tiers as [|other tiers IH]; intros acc.
  { by apply elem_of_nil in Hin. }
  cbn. apply elem_of_cons in Hin as [<-|Hin].
  - by rewrite (extractTier_absent _ _ _ polName).
  - destruct (extractTier m direction acc other); cbn; [by apply IH|done].
Qed.

(** C7, as amended: for every endpoint whose tiers all have an empty
    directional policy list and whose profile names are all in the profile
    cache, the extractor omits every tier and returns a tree holding only
    the profiles tier, one entry per profile name in order, each that
    profile's directional rule list. *)
Theorem extractRules_only_profiles_tier (m : bpfEndpointManager)
    (tiers : list TierInfo) (profileNames : list string) (direction : PolDirection) :
  Forall (λ t, directionalPolicies direction t = []) tiers →
  (∀ profName, profName ∈ profileNames → is_Some (profiles m !! mkProfileID profName)) →
  ∃ profs,
    extractRules m tiers profileNames direction = Ok [profs] ∧
    Forall2 (λ profName rules,
               ∃ prof, profiles m !! mkProfileID profName = Some prof ∧
                       rules = profileRules direction prof)
            profileNames profs.
Proof.
  intros Hempty Hcached. unfold extractRules.
  rewrite extractTiers_all_empty by done. cbn.
  destruct (extractProfiles_cached m direction profileNames Hcached [])
    as (profs & Hrun & Hall).
  exists profs. rewrite Hrun. done.
Qed.

(** C8, as amended: when a tier's directional policy list names a policy
    that is absent from the policy cache, the extractor reads a field
    through a nil pointer: it panics and returns no tree. *)
Theorem extractRules_absent_policy_panics (m : bpfEndpointManager)
    (tiers : list TierInfo) (profileNames : list string) (direction : PolDirection)
    (tier : TierInfo) (polName : string) :
  tier ∈ tiers →
  polName ∈ directionalPolicies direction tier →
  policies m !! mkPolicyID (TierInfo_Name tier) polName = None →
  extractRules m tiers profileNames direction = Panic.
Proof.
  intros Hin Hpol Habsent. unfold extractRules.
  by rewrite (extractTiers_absent _ _ _ tier polName).
Qed.

(** *** The reverse indexes *)

Section index.
Context {K : Type} {K_eq_dec : EqDecision K} {K_countable : Countable K}.
Implicit Types (idx : gmap K (gset WorkloadEndpointID)) (k : K) (ks : list K).
Implicit Types (id : WorkloadEndpointID).

Lemma lookup_discardUser id idx k0 k :
  discardUser id idx k0 !! k =
  if decide (k = k0) then (λ s, s ∖ {[id]}) <$> idx !! k else idx !! k.
Proof.
  unfold discardUser. destruct (decide (k = k0)) as [->|Hne].
  - destruct (idx !! k0) as [s|] eqn:Hk0; cbn.
    + by rewrite lookup_insert_eq.
    + by rewrite Hk0.
  - destruct (idx !! k0); [by rewrite lookup_insert_ne|done].
Qed.

Lemma lookup_addUser id idx k0 k :
  addUser id idx k0 !! k =
  if decide (k = k0) then Some ({[id]} ∪ usersOf idx k) else idx !! k.
Proof.
  unfold addUser, usersOf. destruct (decide (k = k0)) as [->|Hne].
  - destruct (idx !! k0) as [s|]; cbn; rewrite lookup_insert_eq; [done|].
    f_equal. set_solver.
  - destruct (idx !! k0); by rewrite lookup_insert_ne.
Qed.

Lemma lookup_foldl_discardUser id ks idx k :
  foldl (discardUser id) idx ks !! k =
  if decide (k ∈ ks) then (λ s, s ∖ {[id]}) <$> idx !! k else idx !! k.
Proof.
  revert idx. induction ks as [|k0 ks IH]; intros idx; cbn.
  { rewrite decide_False; [done|apply not_elem_of_nil]. }
  rewrite IH, lookup_discardUser.
  destruct (decide (k = k0)) as [->|Hne].
  - rewrite (decide_True (P := k0 ∈ k0 :: ks)) by left.
    destruct (decide (k0 ∈ ks)); [|done].
    destruct (idx !! k0) as [s|]; cbn; [|done]. f_equal. set_solver.
  - destruct (decide (k ∈ ks)) as [Hin|Hnin].
    + by rewrite decide_True by (by right).
    + rewrite decide_False; [done|]. by intros [?|?]%elem_of_cons.
Qed.

Lemma usersOf_addUser id idx k0 k :
  usersOf (addUser id idx k0) k =
  if decide (k = k0) then {[id]} ∪ usersOf idx k else usersOf idx k.
Proof.
  unfold usersOf at 1. rewrite lookup_addUser.
  by destruct (decide (k = k0)).
Qed.

Lemma lookup_foldl_addUser id ks idx k :
  foldl (addUser id) idx ks !! k =
  if decide (k ∈ ks) then Some ({[id]} ∪ usersOf idx k) else idx !! k.
Proof.
  revert idx. induction ks as [|k0 ks IH]; intros idx; cbn.
  { rewrite decide_False; [done|apply not_elem_of_nil]. }
  rewrite IH, usersOf_addUser, lookup_addUser.
  destruct (decide (k = k0)) as [->|Hne].
  - rewrite (decide_True (P := k0 ∈ k0 :: ks)) by left.
    destruct (decide (k0 ∈ ks)); f_equal; set_solver.
  - destruct (decide (k ∈ ks)) as [Hin|Hnin].
    + by rewrite decide_True by (by right).
    + rewrite decide_False; [done|]. by intros [?|?]%elem_of_cons.
Qed.

Lemma elem_of_usersOf_discard id ks idx k id' :
  id' ∈ usersOf (foldl (discardUser id) idx ks) k ↔
  id' ∈ usersOf idx k ∧ ¬ (id' = id ∧ k ∈ ks).
Proof.
  unfold usersOf. rewrite lookup_foldl_discardUser.
  destruct (decide (k ∈ ks)); destruct (idx !! k) as [s|]; cbn; set_solver.
Qed.

Lemma elem_of_usersOf_add id ks idx k id' :
  id' ∈ usersOf (foldl (addUser id) idx ks) k ↔
  id' ∈ usersOf idx k ∨ (id' = id ∧ k ∈ ks).
Proof.
  unfold usersOf at 1. rewrite lookup_foldl_addUser.
  destruct (decide (k ∈ ks)); cbn; [set_solver|].
  fold (usersOf idx k). naive_solver.
Qed.

(** Adding a user again after discarding it from the same keys restores
    an index in which it was a user of each of them. *)
Lemma add_discard_add id ks idx :
  foldl (addUser id) (foldl (discardUser id) (foldl (addUser id) idx ks) ks) ks =
  foldl (addUser id) idx ks.
Proof.
  apply map_eq. intros k.
  rewrite !lookup_foldl_addUser. unfold usersOf.
  rewrite lookup_foldl_discardUser, !lookup_foldl_addUser.
  destruct (decide (k ∈ ks)); cbn; [|done]. f_equal.
  apply set_eq. intros id'. set_unfold.
  destruct (decide (id' = id)); naive_solver.
Qed.

Lemma add_add id ks idx :
  foldl (addUser id) (foldl (addUser id) idx ks) ks = foldl (addUser id) idx ks.
Proof.
  apply map_eq. intros k.
  rewrite !lookup_foldl_addUser. unfold usersOf. rewrite !lookup_foldl_addUser.
  destruct (decide (k ∈ ks)); cbn; [|done]. f_equal. set_solver.
Qed.
End index.

(** *** The handlers, field by field *)

Lemma manager_eta (m : bpfEndpointManager) :
  mkBpfEndpointManager (wlEps m) (policies m) (profiles m) (ifaces m)
    (policiesToWorkloads m) (profilesToWorkloads m)
    (dirtyWorkloads m) (dirtyIfaces m) (dataIfaceRegex m) = m.
Proof. by destruct m. Qed.

Lemma foldl_set_policiesToWorkloads {A} (g : A → PolicyID)
    (f : gmap PolicyID (gset WorkloadEndpointID) → PolicyID →
         gmap PolicyID (gset WorkloadEndpointID))
    (l : list A) (m : bpfEndpointManager) :
  foldl (λ m x, set_policiesToWorkloads (f (policiesToWorkloads m) (g x)) m) m l =
  set_policiesToWorkloads (foldl f (policiesToWorkloads m) (g <$> l)) m.
Proof.
  revert m. induction l as [|x l IH]; intros m; cbn.
  - unfold set_policiesToWorkloads. by rewrite manager_eta.
  - by rewrite IH.
Qed.

Lemma foldl_set_profilesToWorkloads {A} (g : A → ProfileID)
    (f : gmap ProfileID (gset WorkloadEndpointID) → ProfileID →
         gmap ProfileID (gset WorkloadEndpointID))
    (l : list A) (m : bpfEndpointManager) :
  foldl (λ m x, set_profilesToWorkloads (f (profilesToWorkloads m) (g x)) m) m l =
  set_profilesToWorkloads (foldl f (profilesToWorkloads m) (g <$> l)) m.
Proof.
  revert m. induction l as [|x l IH]; intros m; cbn.
  - unfold set_profilesToWorkloads. by rewrite manager_eta.
  - by rewrite IH.
Qed.

Lemma detachTier_eq id m t :
  detachTier id m t =
  set_policiesToWorkloads
    (foldl (discardUser id) (policiesToWorkloads m) (tierEdges t)) m.
Proof.
  unfold detachTier, tierEdges.
  rewrite !(foldl_set_policiesToWorkloads (mkPolicyID (TierInfo_Name t)) (discardUser id)).
  cbn. by rewrite foldl_app.
Qed.

Lemma policyEdges_cons t tiers :
  policyEdges (t :: tiers) = tierEdges t ++ policyEdges tiers.
Proof. done. Qed.

Lemma detachTiers_eq id tiers m :
  detachTiers id tiers m =
  set_policiesToWorkloads
    (foldl (discardUser id) (policiesToWorkloads m) (policyEdges tiers)) m.
Proof.
  unfold detachTiers. revert m. induction tiers as [|t tiers IH]; intros m.
  - cbn. unfold set_policiesToWorkloads. by rewrite manager_eta.
  - cbn [foldl]. rewrite IH, detachTier_eq, policyEdges_cons, foldl_app. done.
Qed.

Lemma detachProfiles_eq id profileIds m :
  detachProfiles id profileIds m =
  set_profilesToWorkloads
    (foldl (discardUser id) (profilesToWorkloads m) (profileEdges profileIds)) m.
Proof.
  unfold detachProfiles, profileEdges.
  by rewrite (foldl_set_profilesToWorkloads mkProfileID (discardUser id)).
Qed.

Lemma attachTier_eq id wl m t :
  attachTier id wl m t =
  set_profilesToWorkloads
    (foldl (addUser id) (profilesToWorkloads m) (profileEdges (ProfileIds wl)))
    (set_policiesToWorkloads
       (foldl (addUser id) (policiesToWorkloads m) (tierEdges t)) m).
Proof.
  unfold attachTier, tierEdges, profileEdges.
  rewrite !(foldl_set_policiesToWorkloads (mkPolicyID (TierInfo_Name t)) (addUser id)).
  rewrite (foldl_set_profilesToWorkloads mkProfileID (addUser id)).
  cbn. by rewrite foldl_app.
Qed.

(** The profile keys the update handler visits for the new endpoint: all
    its profile ids, once per tier. *)
Lemma attachTiers_eq id wl tiers m :
  foldl (attachTier id wl) m tiers =
  set_profilesToWorkloads
    (foldl (addUser id) (profilesToWorkloads m)
       (tiers ≫= λ _, profileEdges (ProfileIds wl)))
    (set_policiesToWorkloads
       (foldl (addUser id) (policiesToWorkloads m) (policyEdges tiers)) m).
Proof.
  revert m. induction tiers as [|t tiers IH]; intros m.
  - cbn. unfold set_profilesToWorkloads, set_policiesToWorkloads. cbn.
    by rewrite manager_eta.
  - cbn [foldl]. rewrite IH, attachTier_eq, policyEdges_cons. cbn.
    by rewrite !foldl_app.
Qed.

Lemma elem_of_policyEdges (wl : WorkloadEndpoint) (p : PolicyID) :
  p ∈ policyEdges (Tiers wl) ↔ refsPolicy wl p.
Proof.
  unfold policyEdges, tierEdges, refsPolicy. rewrite list_elem_of_bind. split.
  - intros (t & Hp & Ht). exists t. split; [done|].
    apply elem_of_app in Hp as [Hp|Hp];
      apply list_elem_of_fmap in Hp as (name & -> & Hname); cbn; auto.
  - intros (t & Ht & Htier & Hname). exists t. split; [|done].
    destruct p as [tier name]; cbn in *; subst tier.
    apply elem_of_app. destruct Hname; [left|right]; by apply list_elem_of_fmap_2.
Qed.

Lemma elem_of_profileEdges (wl : WorkloadEndpoint) (q : ProfileID) :
  q ∈ profileEdges (ProfileIds wl) ↔ refsProfile wl q.
Proof.
  unfold profileEdges, refsProfile. split.
  - by intros (name & -> & Hname)%list_elem_of_fmap.
  - intros Hname. destruct q as [name]. by apply list_elem_of_fmap_2.
Qed.

Lemma manager_ext (m m' : bpfEndpointManager) :
  wlEps m = wlEps m' → policies m = policies m' → profiles m = profiles m' →
  ifaces m = ifaces m' →
  policiesToWorkloads m = policiesToWorkloads m' →
  profilesToWorkloads m = profilesToWorkloads m' →
  dirtyWorkloads m = dirtyWorkloads m' → dirtyIfaces m = dirtyIfaces m' →
  dataIfaceRegex m = dataIfaceRegex m' →
  m = m'.
Proof. destruct m, m'; cbn; congruence. Qed.

(** The state the update handler leaves, written out. *)
Lemma onWorkloadEndpointUpdate_eq (m : bpfEndpointManager) (msg : WorkloadEndpointUpdate) :
  let id := WorkloadEndpointUpdate_Id msg in
  let wl := Endpoint msg in
  onWorkloadEndpointUpdate m msg =
  {| wlEps := <[id := wl]> (wlEps m);
     policies := policies m;
     profiles := profiles m;
     ifaces := ifaces m;
     policiesToWorkloads :=
       foldl (addUser id)
         match wlEps m !! id with
         | Some oldWL =>
             foldl (discardUser id) (policiesToWorkloads m) (policyEdges (Tiers oldWL))
         | None => policiesToWorkloads m
         end
         (policyEdges (Tiers wl));
     profilesToWorkloads :=
       foldl (addUser id)
         match wlEps m !! id with
         | Some oldWL =>
             foldl (discardUser id) (profilesToWorkloads m) (profileEdges (ProfileIds oldWL))
         | None => profilesToWorkloads m
         end
         (Tiers wl ≫= λ _, profileEdges (ProfileIds wl));
     dirtyWorkloads := {[id]} ∪ dirtyWorkloads m;
     dirtyIfaces := dirtyIfaces m;
     dataIfaceRegex := dataIfaceRegex m |}.
Proof.
  intros id wl. unfold onWorkloadEndpointUpdate. fold id wl.
  rewrite attachTiers_eq.
  destruct (wlEps m !! id) as [oldWL|].
  - rewrite detachProfiles_eq, detachTiers_eq. done.
  - done.
Qed.

(** The state the remove handler leaves for a cached id, written out: the
    profile index is the one it found. *)
Lemma onWorkloadEnpdointRemove_eq (m : bpfEndpointManager) (msg : WorkloadEndpointRemove)
    (wl : WorkloadEndpoint) :
  let id := WorkloadEndpointRemove_Id msg in
  wlEps m !! id = Some wl →
  onWorkloadEnpdointRemove m msg =
  Ok {| wlEps := delete id (wlEps m);
        policies := policies m;
        profiles := profiles m;
        ifaces := ifaces m;
        policiesToWorkloads :=
          foldl (discardUser id) (policiesToWorkloads m) (policyEdges (Tiers wl));
        profilesToWorkloads := profilesToWorkloads m;
        dirtyWorkloads := {[id]} ∪ dirtyWorkloads m;
        dirtyIfaces := dirtyIfaces m;
        dataIfaceRegex := dataIfaceRegex m |}.
Proof.
  intros id Hwl. unfold onWorkloadEnpdointRemove. fold id. rewrite Hwl.
  by rewrite detachTiers_eq.
Qed.

(** The remove handler on a cached id: it erases the endpoint, discards the
    id from the set of every (tier, policy) edge of the cached version and
    from no other, and marks the endpoint dirty. *)
Lemma remove_detaches_policy_edges (m : bpfEndpointManager) (msg : WorkloadEndpointRemove)
    (wl : WorkloadEndpoint) :
  wlEps m !! WorkloadEndpointRemove_Id msg = Some wl →
  ∃ m', onWorkloadEnpdointRemove m msg = Ok m' ∧
        wlEps m' = delete (WorkloadEndpointRemove_Id msg) (wlEps m) ∧
        WorkloadEndpointRemove_Id msg ∈ dirtyWorkloads m' ∧
        (∀ p id', id' ∈ usersOf (policiesToWorkloads m') p ↔
                  id' ∈ usersOf (policiesToWorkloads m) p ∧
                  ¬ (id' = WorkloadEndpointRemove_Id msg ∧ refsPolicy wl p)) ∧
        profilesToWorkloads m' = profilesToWorkloads m.
Proof.
  intros Hwl. eexists. split; [by apply onWorkloadEnpdointRemove_eq|]. cbn.
  split; [done|]. split; [set_solver|]. split; [|done].
  intros p id'. rewrite elem_of_usersOf_discard, elem_of_policyEdges. done.
Qed.

(** Applying an endpoint update twice leaves the endpoint cache and the
    policy index as applying it once does, from every state. *)
Lemma update_twice_cache_and_policies (m : bpfEndpointManager) (msg : WorkloadEndpointUpdate) :
  let once := onWorkloadEndpointUpdate m msg in
  let twice := onWorkloadEndpointUpdate once msg in
  wlEps twice = wlEps once ∧ policiesToWorkloads twice = policiesToWorkloads once.
Proof.
  intros once twice. subst twice once.
  rewrite (onWorkloadEndpointUpdate_eq (onWorkloadEndpointUpdate m msg)).
  rewrite (onWorkloadEndpointUpdate_eq m). cbn.
  rewrite lookup_insert_eq, insert_insert_eq. split; [done|].
  apply add_discard_add.
Qed.

(** With at least one tier in the endpoint the profile index is left alike
    too. *)
Lemma update_twice_profiles (m : bpfEndpointManager) (msg : WorkloadEndpointUpdate) :
  let once := onWorkloadEndpointUpdate m msg in
  let twice := onWorkloadEndpointUpdate once msg in
  Tiers (Endpoint msg) ≠ [] →
  profilesToWorkloads twice = profilesToWorkloads once.
Proof.
  intros once twice Htiers. subst twice once.
  rewrite (onWorkloadEndpointUpdate_eq (onWorkloadEndpointUpdate m msg)).
  rewrite (onWorkloadEndpointUpdate_eq m). cbn.
  rewrite lookup_insert_eq.
  set (id := WorkloadEndpointUpdate_Id msg).
  set (P := profileEdges (ProfileIds (Endpoint msg))).
  set (P' := Tiers (Endpoint msg) ≫= λ _, P).
  assert (HP : ∀ q, q ∈ P' ↔ q ∈ P).
  { intros q. unfold P'. rewrite list_elem_of_bind. split; [by intros (_ & ? & _)|].
    intros Hq. destruct (Tiers (Endpoint msg)) as [|t ?]; [done|].
    exists t. split; [done|left]. }
  match goal with |- foldl _ (foldl _ (foldl _ ?X _) _) _ = _ => generalize X end.
  intros idx. apply map_eq. intros q.
  rewrite !lookup_foldl_addUser. unfold usersOf.
  rewrite lookup_foldl_discardUser, !lookup_foldl_addUser.
  destruct (decide (q ∈ P')) as [Hq|Hq].
  - rewrite decide_True by (by apply HP). cbn. f_equal.
    apply set_eq. intros id'. set_unfold.
    destruct (decide (id' = id)); naive_solver.
  - rewrite decide_False by (by rewrite <- HP). done.
Qed.

(** C6: for every endpoint update [u] and every state, the remove of the
    same id after [u] returns, and applying [u] again restores the state
    reached by [u] alone: the endpoint cache, and with it the policy and
    profile caches, both indexes and the dirty sets. *)
Theorem remove_then_update_restores (m : bpfEndpointManager) (u : WorkloadEndpointUpdate) :
  ∃ m2,
    onWorkloadEnpdointRemove (onWorkloadEndpointUpdate m u)
      (mkWorkloadEndpointRemove (WorkloadEndpointUpdate_Id u)) = Ok m2 ∧
    wlEps (onWorkloadEndpointUpdate m2 u) = wlEps (onWorkloadEndpointUpdate m u) ∧
    onWorkloadEndpointUpdate m2 u = onWorkloadEndpointUpdate m u.
Proof.
  set (id := WorkloadEndpointUpdate_Id u).
  assert (Hcached : wlEps (onWorkloadEndpointUpdate m u) !! id = Some (Endpoint u)).
  { rewrite onWorkloadEndpointUpdate_eq. cbn. apply lookup_insert_eq. }
  eexists. split.
  { by apply (onWorkloadEnpdointRemove_eq _ (mkWorkloadEndpointRemove id) (Endpoint u)). }
  match goal with |- _ ∧ ?m2' = ?m1' => assert (Heq : m2' = m1'); [|by rewrite Heq] end.
  rewrite (onWorkloadEndpointUpdate_eq m u).
  rewrite onWorkloadEndpointUpdate_eq. cbn. fold id.
  rewrite lookup_delete_eq, insert_delete_eq, insert_insert_eq.
  apply manager_ext; cbn; try done.
  - apply add_discard_add.
  - apply add_add.
  - set_solver.
Qed.

(** *** The policy index along a run of the dispatcher *)

Lemma elem_of_usersOf_update (m : bpfEndpointManager) (msg : WorkloadEndpointUpdate)
    (p : PolicyID) (id' : WorkloadEndpointID) :
  id' ∈ usersOf (policiesToWorkloads (onWorkloadEndpointUpdate m msg)) p ↔
  (id' = WorkloadEndpointUpdate_Id msg ∧ refsPolicy (Endpoint msg) p) ∨
  (id' ∈ usersOf (policiesToWorkloads m) p ∧
   ¬ (id' = WorkloadEndpointUpdate_Id msg ∧
      cachedRefsPolicy m (WorkloadEndpointUpdate_Id msg) p)).
Proof.
  rewrite onWorkloadEndpointUpdate_eq. cbn.
  rewrite elem_of_usersOf_add, elem_of_policyEdges. unfold cachedRefsPolicy.
  destruct (wlEps m !! WorkloadEndpointUpdate_Id msg) as [oldWL|].
  - rewrite elem_of_usersOf_discard, elem_of_policyEdges. naive_solver.
  - naive_solver.
Qed.

Lemma lookup_wlEps_update (m : bpfEndpointManager) (msg : WorkloadEndpointUpdate)
    (id' : WorkloadEndpointID) :
  wlEps (onWorkloadEndpointUpdate m msg) !! id' =
  if decide (id' = WorkloadEndpointUpdate_Id msg) then Some (Endpoint msg)
  else wlEps m !! id'.
Proof.
  rewrite onWorkloadEndpointUpdate_eq. cbn.
  destruct (decide _) as [->|Hne]; [apply lookup_insert_eq|by apply lookup_insert_ne].
Qed.

Lemma markPolicyUsersDirty_caches m id :
  wlEps (markPolicyUsersDirty m id) = wlEps m ∧
  policies (markPolicyUsersDirty m id) = policies m ∧
  policiesToWorkloads (markPolicyUsersDirty m id) = policiesToWorkloads m.
Proof. unfold markPolicyUsersDirty. by destruct (policiesToWorkloads m !! id). Qed.

Lemma markProfileUsersDirty_caches m id :
  wlEps (markProfileUsersDirty m id) = wlEps m ∧
  profiles (markProfileUsersDirty m id) = profiles m ∧
  policiesToWorkloads (markProfileUsersDirty m id) = policiesToWorkloads m.
Proof. unfold markProfileUsersDirty. by destruct (profilesToWorkloads m !! id). Qed.

(** The messages that leave both the endpoint cache and the policy index
    as they are. *)
Lemma OnUpdate_other (w : World) (m m' : bpfEndpointManager) (msg : Msg) :
  match msg with
  | MsgWorkloadEndpointUpdate _ | MsgWorkloadEndpointRemove _
  | MsgActivePolicyRemove _ => False
  | _ => True
  end →
  OnUpdate w m msg = Ok m' →
  wlEps m' = wlEps m ∧ policiesToWorkloads m' = policiesToWorkloads m.
Proof.
  destruct msg as [u|u|u|u|u|u|u|u|]; try done; intros _ [= <-]; cbn.
  - unfold onInterfaceUpdate. by destruct (decide _).
  - unfold onInterfaceAddrsUpdate. by destruct (Addrs u).
  - unfold onPolicyUpdate.
    by destruct (markPolicyUsersDirty_caches
                   (set_policies (<[ActivePolicyUpdate_Id u:=ActivePolicyUpdate_Policy u]>
                                    (policies m)) m)
                   (ActivePolicyUpdate_Id u)) as (-> & _ & ->).
  - unfold onProfileUpdate.
    by destruct (markProfileUsersDirty_caches
                   (set_profiles (<[ActiveProfileUpdate_Id u:=ActiveProfileUpdate_Profile u]>
                                    (profiles m)) m)
                   (ActiveProfileUpdate_Id u)) as (-> & _ & ->).
  - unfold onProfileRemove. cbn.
    by destruct (markProfileUsersDirty_caches m (ActiveProfileRemove_Id u)) as (-> & _ & ->).
  - done.
Qed.

Lemma onPolicyRemove_caches (m : bpfEndpointManager) (msg : ActivePolicyRemove) :
  wlEps (onPolicyRemove m msg) = wlEps m ∧
  policiesToWorkloads (onPolicyRemove m msg) =
  delete (ActivePolicyRemove_Id msg) (policiesToWorkloads m).
Proof.
  unfold onPolicyRemove. cbn.
  by destruct (markPolicyUsersDirty_caches m (ActivePolicyRemove_Id msg)) as (-> & _ & ->).
Qed.

Lemma OnUpdate_sound (w : World) (m m' : bpfEndpointManager) (msg : Msg) :
  policyIndexSound m → OnUpdate w m msg = Ok m' → policyIndexSound m'.
Proof.
  intros Hsound Hstep p id' Hin.
  destruct msg as [u|u|u|u|u|u|u|u|];
    try (match type of Hstep with
         | OnUpdate _ _ ?msg = _ =>
             destruct (OnUpdate_other w m m' msg I Hstep) as [Hw Hp]
         end;
         unfold cachedRefsPolicy; rewrite Hw; rewrite Hp in Hin; by apply Hsound).
  - (* endpoint update *)
    injection Hstep as <-.
    apply elem_of_usersOf_update in Hin as [[-> Href]|[Hin Hold]].
    + exists (Endpoint u). by rewrite lookup_wlEps_update, decide_True.
    + destruct (Hsound p id' Hin) as (wl0 & Hwl0 & Href0).
      destruct (decide (id' = WorkloadEndpointUpdate_Id u)) as [->|Hne].
      * destruct Hold. split; [done|]. by exists wl0.
      * exists wl0. by rewrite lookup_wlEps_update, decide_False.
  - (* endpoint remove *)
    cbn in Hstep.
    destruct (wlEps m !! WorkloadEndpointRemove_Id u) as [wl|] eqn:Hwl;
      [|by unfold onWorkloadEnpdointRemove in Hstep; rewrite Hwl in Hstep].
    destruct (remove_detaches_policy_edges m u wl Hwl) as (m2 & Hrm & Hw & _ & Hp & _).
    rewrite Hrm in Hstep. injection Hstep as <-.
    apply Hp in Hin. destruct Hin as [Hin Hnot].
    destruct (Hsound p id' Hin) as (wl0 & Hwl0 & Href0).
    destruct (decide (id' = WorkloadEndpointRemove_Id u)) as [->|Hne].
    + destruct Hnot. split; [done|]. congruence.
    + exists wl0. by rewrite Hw, lookup_delete_ne.
  - (* policy remove *)
    injection Hstep as <-.
    destruct (onPolicyRemove_caches m u) as [Hw Hp].
    unfold cachedRefsPolicy. rewrite Hw. apply Hsound.
    revert Hin. unfold usersOf. rewrite Hp.
    destruct (decide (p = ActivePolicyRemove_Id u)) as [->|Hne].
    + rewrite lookup_delete_eq. set_solver.
    + by rewrite lookup_delete_ne.
Qed.

Lemma OnUpdate_complete (w : World) (m m' : bpfEndpointManager) (msg : Msg) (p : PolicyID) :
  msg ≠ MsgActivePolicyRemove (mkActivePolicyRemove p) →
  policyIndexComplete m p → OnUpdate w m msg = Ok m' → policyIndexComplete m' p.
Proof.
  intros Hmsg Hcomplete Hstep id' (wl' & Hwl' & Href').
  destruct msg as [u|u|u|u|u|u|u|u|];
    try (match type of Hstep with
         | OnUpdate _ _ ?msg = _ =>
             destruct (OnUpdate_other w m m' msg I Hstep) as [Hw Hp]
         end;
         rewrite Hp; apply Hcomplete; exists wl'; by rewrite <- Hw).
  - (* endpoint update *)
    injection Hstep as <-. apply elem_of_usersOf_update.
    rewrite lookup_wlEps_update in Hwl'.
    destruct (decide (id' = WorkloadEndpointUpdate_Id u)) as [->|Hne].
    + left. split; [done|]. congruence.
    + right. split; [|by intros [? _]]. apply Hcomplete. by exists wl'.
  - (* endpoint remove *)
    cbn in Hstep.
    destruct (wlEps m !! WorkloadEndpointRemove_Id u) as [wl|] eqn:Hwl;
      [|by unfold onWorkloadEnpdointRemove in Hstep; rewrite Hwl in Hstep].
    destruct (remove_detaches_policy_edges m u wl Hwl) as (m2 & Hrm & Hw & _ & Hp & _).
    rewrite Hrm in Hstep. injection Hstep as <-.
    rewrite Hw in Hwl'.
    destruct (decide (id' = WorkloadEndpointRemove_Id u)) as [->|Hne].
    + by rewrite lookup_delete_eq in Hwl'.
    + rewrite lookup_delete_ne in Hwl' by done.
      apply Hp. split; [|by intros [? _]]. apply Hcomplete. by exists wl'.
  - (* policy remove *)
    injection Hstep as <-.
    destruct (onPolicyRemove_caches m u) as [Hw Hp].
    rewrite Hw in Hwl'. unfold usersOf. rewrite Hp.
    rewrite lookup_delete_ne.
    + apply Hcomplete. by exists wl'.
    + intros Heq. apply Hmsg. destruct u as [p0]. cbn in Heq. by subst p0.
Qed.

Lemma OnUpdates_sound (w : World) (msgs : list Msg) (m m' : bpfEndpointManager) :
  policyIndexSound m → OnUpdates w m msgs = Ok m' → policyIndexSound m'.
Proof.
  unfold OnUpdates. revert m. induction msgs as [|msg msgs IH]; intros m Hsound Hrun.
  - by injection Hrun as <-.
  - cbn in Hrun. destruct (OnUpdate w m msg) as [m1|] eqn:Hstep; [|done].
    eapply IH; [|exact Hrun]. by eapply OnUpdate_sound.
Qed.

Lemma OnUpdates_complete (w : World) (msgs : list Msg) (m m' : bpfEndpointManager)
    (p : PolicyID) :
  MsgActivePolicyRemove (mkActivePolicyRemove p) ∉ msgs →
  policyIndexComplete m p → OnUpdates w m msgs = Ok m' → policyIndexComplete m' p.
Proof.
  unfold OnUpdates. revert m.
  induction msgs as [|msg msgs IH]; intros m Hmsgs Hcomplete Hrun.
  - by injection Hrun as <-.
  - cbn in Hrun. destruct (OnUpdate w m msg) as [m1|] eqn:Hstep; [|done].
    apply not_elem_of_cons in Hmsgs as [Hmsg Hmsgs].
    eapply IH; [done| |exact Hrun]. eapply OnUpdate_complete; [|done..]. done.
Qed.

Lemma forM_snoc {A B} (body : B → A → Result B) (acc : B) (l : list A) (x : A) :
  forM body acc (l ++ [x]) = forM body acc l ≫= λ acc', body acc' x.
Proof.
  revert acc. induction l as [|y l IH]; intros acc; cbn.
  - unfold mbind, Result_mbind, Result_bind. by destruct (body acc x).
  - unfold mbind, Result_mbind, Result_bind. destruct (body acc y); [apply IH|done].
Qed.

Lemma upsertedSinceRemove_snoc (msgs : list Msg) (msg : Msg) (id : WorkloadEndpointID)
    (p : PolicyID) :
  upsertedSinceRemove (msgs ++ [msg]) id p ↔
  (∃ u, msg = MsgWorkloadEndpointUpdate u ∧ WorkloadEndpointUpdate_Id u = id) ∨
  (upsertedSinceRemove msgs id p ∧ msg ≠ MsgActivePolicyRemove (mkActivePolicyRemove p)).
Proof.
  unfold upsertedSinceRemove. split.
  - intros (pre & u & post & Hmsgs & Hid & Hpost).
    destruct post as [|x post _] using rev_ind.
    + left. exists u. split; [|done].
      change (pre ++ [MsgWorkloadEndpointUpdate u]) with
        (pre ++ [MsgWorkloadEndpointUpdate u]) in Hmsgs.
      by apply app_inj_tail in Hmsgs as [_ ->].
    + right.
      replace (pre ++ MsgWorkloadEndpointUpdate u :: post ++ [x])
        with ((pre ++ MsgWorkloadEndpointUpdate u :: post) ++ [x]) in Hmsgs
        by (by rewrite <- app_assoc).
      apply app_inj_tail in Hmsgs as [-> ->].
      apply not_elem_of_app in Hpost as [Hpost Hx]. split.
      * by exists pre, u, post.
      * intros ->. apply Hx. left.
  - intros [(u & -> & Hid)|[(pre & u & post & -> & Hid & Hpost) Hmsg]].
    + exists msgs, u, []. split; [done|]. split; [done|]. apply not_elem_of_nil.
    + exists pre, u, (post ++ [msg]). split; [by rewrite <- app_assoc|]. split; [done|].
      apply not_elem_of_app. split; [done|].
      intros Heq%list_elem_of_singleton. by apply Hmsg.
Qed.

(** The index entry of a policy lists exactly the endpoints whose cached
    version references it and that were upserted since its last remove. *)
Lemma OnUpdate_policy_index (w : World) (msgs : list Msg) (msg : Msg)
    (m m' : bpfEndpointManager) :
  (∀ p id, id ∈ usersOf (policiesToWorkloads m) p ↔
           cachedRefsPolicy m id p ∧ upsertedSinceRemove msgs id p) →
  OnUpdate w m msg = Ok m' →
  ∀ p id, id ∈ usersOf (policiesToWorkloads m') p ↔
          cachedRefsPolicy m' id p ∧ upsertedSinceRemove (msgs ++ [msg]) id p.
Proof.
  intros Hinv Hstep p id. rewrite upsertedSinceRemove_snoc.
  destruct msg as [u|u|u|u|u|u|u|u|];
    try (match type of Hstep with
         | OnUpdate _ _ ?msg = _ =>
             destruct (OnUpdate_other w m m' msg I Hstep) as [Hw Hp]
         end;
         unfold cachedRefsPolicy; rewrite Hw, Hp, Hinv; unfold cachedRefsPolicy;
         split; [intros [? ?]; split; [done|]; right; by split
                |intros [? [(? & ? & _)|[? _]]]; [done|by split]]).
  - (* endpoint update *)
    injection Hstep as <-. rewrite elem_of_usersOf_update.
    unfold cachedRefsPolicy at 2. rewrite lookup_wlEps_update.
    destruct (decide (id = WorkloadEndpointUpdate_Id u)) as [->|Hne].
    + split.
      * intros [[_ Href]|[Hin Hnot]].
        -- split; [by exists (Endpoint u)|]. left. by exists u.
        -- destruct Hnot. split; [done|]. by apply Hinv in Hin as [? _].
      * intros [(wl & [= <-] & Href) _]. by left.
    + split.
      * intros [[? _]|[Hin _]]; [done|]. apply Hinv in Hin as [Href Hfresh].
        split; [done|]. right. by split.
      * intros [Href [(u' & [= <-] & Hid)|[Hfresh _]]]; [done|].
        right. split; [by apply Hinv|]. by intros [? _].
  - (* endpoint remove *)
    cbn in Hstep.
    destruct (wlEps m !! WorkloadEndpointRemove_Id u) as [wl|] eqn:Hwl;
      [|by unfold onWorkloadEnpdointRemove in Hstep; rewrite Hwl in Hstep].
    destruct (remove_detaches_policy_edges m u wl Hwl) as (m2 & Hrm & Hw & _ & Hp & _).
    rewrite Hrm in Hstep. injection Hstep as <-.
    rewrite Hp. unfold cachedRefsPolicy at 1. rewrite Hw.
    destruct (decide (id = WorkloadEndpointRemove_Id u)) as [->|Hne].
    + rewrite lookup_delete_eq. split.
      * intros [Hin Hnot]. destruct Hnot. split; [done|].
        apply Hinv in Hin as [(wl0 & Hwl0 & Href) _]. congruence.
      * by intros [(wl0 & ? & _) _].
    + rewrite lookup_delete_ne by done. split.
      * intros [Hin _]. apply Hinv in Hin as [Href Hfresh]. split; [done|]. right. by split.
      * intros [Href [(u' & ? & _)|[Hfresh _]]]; [done|].
        split; [by apply Hinv|]. by intros [? _].
  - (* policy remove *)
    injection Hstep as <-.
    destruct (onPolicyRemove_caches m u) as [Hw Hp].
    unfold cachedRefsPolicy at 1. rewrite Hw. unfold usersOf at 1. rewrite Hp.
    destruct u as [p0]. cbn.
    destruct (decide (p = p0)) as [->|Hne].
    + rewrite lookup_delete_eq. cbn. split; [set_solver|].
      intros [_ [(u' & ? & _)|[_ Hmsg]]]; done.
    + rewrite lookup_delete_ne by done. fold (usersOf (policiesToWorkloads m) p).
      rewrite Hinv. unfold cachedRefsPolicy. split.
      * intros [? ?]. split; [done|]. right. split; [done|]. congruence.
      * intros [? [(u' & ? & _)|[? _]]]; [done|by split].
Qed.

Lemma OnUpdates_policy_index (w : World) (dataIfaceRegex : string → bool)
    (msgs : list Msg) (m : bpfEndpointManager) :
  OnUpdates w (newBPFEndpointManager dataIfaceRegex) msgs = Ok m →
  ∀ p id, id ∈ usersOf (policiesToWorkloads m) p ↔
          cachedRefsPolicy m id p ∧ upsertedSinceRemove msgs id p.
Proof.
  unfold OnUpdates. revert m. induction msgs as [|msg msgs IH] using rev_ind; intros m Hrun.
  - injection Hrun as <-. intros p id. unfold usersOf. cbn. rewrite lookup_empty. cbn.
    split; [set_solver|]. intros [(wl & Hwl & _) _]. cbn in Hwl.
    by rewrite lookup_empty in Hwl.
  - rewrite forM_snoc in Hrun. unfold mbind, Result_mbind, Result_bind in Hrun.
    destruct (forM (OnUpdate w) (newBPFEndpointManager dataIfaceRegex) msgs)
      as [m1|] eqn:Hrun1; [|done].
    by apply (OnUpdate_policy_index w msgs msg m1 m (IH m1 eq_refl)).
Qed.

Lemma OnUpdates_complete_unreferenced (w : World) (msgs : list Msg)
    (m m' : bpfEndpointManager) (p : PolicyID) :
  removesUnreferenced w m msgs p →
  policyIndexComplete m p → OnUpdates w m msgs = Ok m' → policyIndexComplete m' p.
Proof.
  unfold OnUpdates, removesUnreferenced. revert m.
  induction msgs as [|msg msgs IH]; intros m Hord Hcomplete Hrun.
  { by injection Hrun as <-. }
  cbn [forM] in Hrun. unfold mbind, Result_mbind, Result_bind in Hrun.
  destruct (OnUpdate w m msg) as [m1|] eqn:Hstep; [|done].
  apply (IH m1); [| |done].
  - intros pre post m2 -> Hpre. apply (Hord (msg :: pre) post m2); [done|].
    unfold OnUpdates in *. cbn [forM].
    unfold mbind, Result_mbind, Result_bind. by rewrite Hstep.
  - assert (Hcases : msg = MsgActivePolicyRemove (mkActivePolicyRemove p) ∨
                     msg ≠ MsgActivePolicyRemove (mkActivePolicyRemove p)).
    { destruct msg as [u|u|u|u|u|[p0]|u|u|]; try (right; discriminate).
      destruct (decide (p0 = p)) as [->|Hne]; [by left|right; congruence]. }
    destruct Hcases as [->|Hne]; [|by apply (OnUpdate_complete w m m1 msg p)].
    injection Hstep as <-.
    destruct (onPolicyRemove_caches m (mkActivePolicyRemove p)) as [Hw _].
    intros id (wl & Hwl & Href). rewrite Hw in Hwl.
    destruct (Hord [] msgs m eq_refl eq_refl id). by exists wl.
Qed.

(** C3, as amended: after any finite sequence of dispatcher updates that
    the manager survives, policiesToWorkloads[p] equals exactly the set of
    endpoint ids whose cached version references p in some tier, ingress or
    egress, and that were upserted after the last remove of p; every listed
    id is thus an endpoint whose cached version references p, and for a
    policy whose every remove arrived while no cached endpoint referenced
    it (in particular a policy never removed) the listed ids are exactly
    the endpoints whose cached version references p. *)
Theorem policy_index_after_updates (w : World) (dataIfaceRegex : string → bool)
    (msgs : list Msg) (m : bpfEndpointManager) :
  OnUpdates w (newBPFEndpointManager dataIfaceRegex) msgs = Ok m →
  ∀ p,
    (∀ id, id ∈ usersOf (policiesToWorkloads m) p ↔
           cachedRefsPolicy m id p ∧ upsertedSinceRemove msgs id p) ∧
    (∀ id, id ∈ usersOf (policiesToWorkloads m) p → cachedRefsPolicy m id p) ∧
    (removesUnreferenced w (newBPFEndpointManager dataIfaceRegex) msgs p →
     ∀ id, id ∈ usersOf (policiesToWorkloads m) p ↔ cachedRefsPolicy m id p).
Proof.
  intros Hrun p.
  pose proof (OnUpdates_policy_index w dataIfaceRegex msgs m Hrun p) as Hexact.
  split; [exact Hexact|]. split; [intros id Hin; by apply Hexact in Hin as [? _]|].
  intros Hord id. split; [intros Hin; by apply Hexact in Hin as [? _]|].
  eapply OnUpdates_complete_unreferenced; [exact Hord| |exact Hrun].
  intros id0 (wl & Hwl & _). cbn in Hwl. by rewrite lookup_empty in Hwl.
Qed.

(** *** The scenarios *)

(** Decide a closed proposition by evaluating its decision procedure. *)
Ltac by_evaluation :=
  match goal with
  | |- ?P => refine (bool_decide_unpack P _); vm_compute; exact I
  end.

(** Scenario 2 of the specification, with a profile: the ingress tree of
    [wl1] is the tier of [polX] followed by the profiles tier, and the
    program goes to the egress hook. *)
Example extract_and_attach_point_wl1 :
  extractRules Scenario.afterPolProfA (Tiers Scenario.epA) (ProfileIds Scenario.epA)
    PolDirnIngress = Ok [[[Scenario.R1]]; [[Scenario.R2]]] ∧
  calculateTCAttachPoint EpTypeWorkload PolDirnIngress "cali1" =
    Ok {| Section_ := "calico_to_workload_ep"; Hook := TCHookEgress;
          Iface := "cali1"; CompileFlags := CompileFlagIngress |}.
Proof. split; vm_compute; reflexivity. Qed.

(** The policy is removed while the cached endpoint still references it:
    the index entry is erased, so the endpoint is no longer listed. *)
Lemma policy_index_after_policy_remove :
  ∃ m,
    OnUpdates Scenario.calm Scenario.fresh
      [Scenario.updProf1; Scenario.updPolX; Scenario.updA; Scenario.rmPolX] = Ok m ∧
    cachedRefsPolicy m Scenario.wl1 Scenario.polX ∧
    Scenario.wl1 ∉ usersOf (policiesToWorkloads m) Scenario.polX.
Proof.
  eexists. split; [reflexivity|]. split.
  - exists Scenario.epA. split; [vm_compute; reflexivity|].
    eexists. split; [left|]. split; [reflexivity|]. left. left.
  - by_evaluation.
Qed.

Lemma policy_index_after_updates_witness :
  OnUpdates Scenario.calm (newBPFEndpointManager Scenario.ethPattern) Fixture.orderedRun
    = Ok Fixture.afterOrderedRun ∧
  removesUnreferenced Scenario.calm (newBPFEndpointManager Scenario.ethPattern)
    Fixture.orderedRun Scenario.polX ∧
  ∀ id, id ∈ usersOf (policiesToWorkloads Fixture.afterOrderedRun) Scenario.polX ↔
        cachedRefsPolicy Fixture.afterOrderedRun id Scenario.polX.
Proof.
  assert (Hrun : OnUpdates Scenario.calm (newBPFEndpointManager Scenario.ethPattern)
                   Fixture.orderedRun = Ok Fixture.afterOrderedRun) by reflexivity.
  assert (Hord : removesUnreferenced Scenario.calm
                   (newBPFEndpointManager Scenario.ethPattern)
                   Fixture.orderedRun Scenario.polX).
  { intros pre post m1 Heq Hpre id (wl & Hwl & _).
    destruct pre as [|a [|b [|c [|d [|e pre]]]]]; cbn in Heq; try discriminate.
    - injection Heq as <- _. injection Hpre as <-.
      vm_compute in Hwl. discriminate.
    - destruct pre; discriminate. }
  split; [exact Hrun|]. split; [exact Hord|].
  exact (proj2 (proj2 (policy_index_after_updates Scenario.calm Scenario.ethPattern
                         Fixture.orderedRun Fixture.afterOrderedRun Hrun Scenario.polX))
           Hord).
Defined.

(** In that run [wl1] is listed under polX at the end. *)
Example policy_index_after_ordered_remove :
  Scenario.wl1 ∈ usersOf (policiesToWorkloads Fixture.afterOrderedRun) Scenario.polX.
Proof. by_evaluation. Qed.

(** C4, at the failing input: endpoint [wl1], cached with one tier that
    names policy polX and with profile prof1, is removed.  The handler
    erases it from the cache, marks it dirty and discards it from the set of
    polX, but it leaves it in the set of prof1, which the cached version
    declared. *)
Theorem remove_keeps_profile_edge :
  refsPolicy Scenario.epA Scenario.polX ∧
  refsProfile Scenario.epA Scenario.prof1 ∧
  wlEps Scenario.afterA !! Scenario.wl1 = Some Scenario.epA ∧
  ∃ m',
    onWorkloadEnpdointRemove Scenario.afterA (mkWorkloadEndpointRemove Scenario.wl1) = Ok m' ∧
    wlEps m' !! Scenario.wl1 = None ∧
    Scenario.wl1 ∈ dirtyWorkloads m' ∧
    (Scenario.wl1 ∉ usersOf (policiesToWorkloads m') Scenario.polX) ∧
    Scenario.wl1 ∈ usersOf (profilesToWorkloads m') Scenario.prof1.
Proof.
  split. { eexists. split; [left|]. split; [reflexivity|]. left. left. }
  split. { left. }
  assert (Hcached : wlEps Scenario.afterA !! Scenario.wl1 = Some Scenario.epA).
  { vm_compute. reflexivity. }
  split; [exact Hcached|].
  eexists. split.
  { exact (onWorkloadEnpdointRemove_eq Scenario.afterA
             (mkWorkloadEndpointRemove Scenario.wl1) Scenario.epA Hcached). }
  cbn [wlEps dirtyWorkloads policiesToWorkloads profilesToWorkloads
       WorkloadEndpointRemove_Id].
  split; [apply lookup_delete_eq|].
  repeat split; by_evaluation.
Qed.

(** C5, at the failing input: [wl1] is added with a tier and profile prof1
    and removed again, which leaves it listed under prof1; then the update
    of [wl1] with no tier and profile prof1 is applied.  After one
    application [wl1] is listed under prof1, after two it is not: the
    profile index differs. *)
Theorem update_twice_changes_profile_index :
  ∃ s,
    onWorkloadEnpdointRemove Scenario.afterA (mkWorkloadEndpointRemove Scenario.wl1) = Ok s ∧
    let u := mkWorkloadEndpointUpdate Scenario.wl1 Scenario.epB in
    let once := onWorkloadEndpointUpdate s u in
    let twice := onWorkloadEndpointUpdate once u in
    Scenario.wl1 ∈ usersOf (profilesToWorkloads once) Scenario.prof1 ∧
    (Scenario.wl1 ∉ usersOf (profilesToWorkloads twice) Scenario.prof1) ∧
    profilesToWorkloads twice ≠ profilesToWorkloads once.
Proof.
  assert (Hcached : wlEps Scenario.afterA !! Scenario.wl1 = Some Scenario.epA).
  { vm_compute. reflexivity. }
  eexists. split.
  { exact (onWorkloadEnpdointRemove_eq Scenario.afterA
             (mkWorkloadEndpointRemove Scenario.wl1) Scenario.epA Hcached). }
  cbv zeta.
  match goal with
  | |- ?a ∈ usersOf ?x ?k ∧ (?a ∉ usersOf ?y ?k) ∧ _ =>
      assert (H1 : a ∈ usersOf x k) by by_evaluation;
      assert (H2 : a ∉ usersOf y k) by by_evaluation
  end.
  split; [exact H1|]. split; [exact H2|].
  intros Heq. apply H2. rewrite Heq. exact H1.
Qed.

(** A profile is removed while the cached endpoint still lists it; the
    endpoint's only tier has no policy, and the extractor returns no tree. *)
Lemma extractRules_removed_profile :
  ∃ m,
    OnUpdates Scenario.calm Scenario.fresh
      [Scenario.updProf1; Scenario.updC; Scenario.rmProf1] = Ok m ∧
    wlEps m !! Scenario.wl1 = Some Scenario.epC ∧
    Forall (λ t, directionalPolicies PolDirnIngress t = []) (Tiers Scenario.epC) ∧
    ¬ ∃ tree,
        extractRules m (Tiers Scenario.epC) (ProfileIds Scenario.epC) PolDirnIngress = Ok tree.
Proof.
  eexists. split; [reflexivity|]. split; [vm_compute; reflexivity|].
  split; [repeat constructor|].
  intros [tree Htree]. vm_compute in Htree. discriminate.
Qed.

Lemma extractRules_only_profiles_tier_witness :
  Forall (λ t, directionalPolicies PolDirnIngress t = []) (Tiers Scenario.epC) ∧
  (∀ profName, profName ∈ ProfileIds Scenario.epC →
               is_Some (profiles Scenario.afterProfC !! mkProfileID profName)) ∧
  ∃ profs,
    extractRules Scenario.afterProfC (Tiers Scenario.epC) (ProfileIds Scenario.epC)
      PolDirnIngress = Ok [profs] ∧
    Forall2 (λ profName rules,
               ∃ prof, profiles Scenario.afterProfC !! mkProfileID profName = Some prof ∧
                       rules = profileRules PolDirnIngress prof)
            (ProfileIds Scenario.epC) profs.
Proof.
  assert (Hempty : Forall (λ t, directionalPolicies PolDirnIngress t = [])
                     (Tiers Scenario.epC)).
  { repeat constructor. }
  assert (Hcached : ∀ profName, profName ∈ ProfileIds Scenario.epC →
                      is_Some (profiles Scenario.afterProfC !! mkProfileID profName)).
  { intros profName Hin. cbn in Hin. apply list_elem_of_singleton in Hin as ->.
    exists Scenario.prof1_v1. vm_compute. reflexivity. }
  split; [exact Hempty|]. split; [exact Hcached|].
  exact (extractRules_only_profiles_tier Scenario.afterProfC (Tiers Scenario.epC)
           (ProfileIds Scenario.epC) PolDirnIngress Hempty Hcached).
Defined.

(** Scenario 4 of the specification: the policy is removed while the cached
    endpoint still references it, and the extractor returns no tree. *)
Lemma extractRules_removed_policy :
  ∃ m,
    OnUpdates Scenario.calm Scenario.fresh
      [Scenario.updProf1; Scenario.updPolX; Scenario.updA; Scenario.rmPolX] = Ok m ∧
    wlEps m !! Scenario.wl1 = Some Scenario.epA ∧
    policies m !! Scenario.polX = None ∧
    ¬ ∃ tree,
        extractRules m (Tiers Scenario.epA) (ProfileIds Scenario.epA) PolDirnIngress = Ok tree.
Proof.
  eexists. split; [reflexivity|]. split; [vm_compute; reflexivity|].
  split; [vm_compute; reflexivity|].
  intros [tree Htree]. vm_compute in Htree. discriminate.
Qed.

Lemma extractRules_absent_policy_panics_witness :
  {| TierInfo_Name := "tierA"; IngressPolicies := ["polX"]; EgressPolicies := [] |}
    ∈ Tiers Scenario.epA ∧
  "polX" ∈ directionalPolicies PolDirnIngress
             {| TierInfo_Name := "tierA"; IngressPolicies := ["polX"]; EgressPolicies := [] |} ∧
  policies Scenario.afterA !! mkPolicyID "tierA" "polX" = None ∧
  extractRules Scenario.afterA (Tiers Scenario.epA) (ProfileIds Scenario.epA)
    PolDirnIngress = Panic.
Proof.
  assert (Htier : {| TierInfo_Name := "tierA"; IngressPolicies := ["polX"];
                     EgressPolicies := [] |} ∈ Tiers Scenario.epA) by left.
  assert (Hpol : "polX" ∈ directionalPolicies PolDirnIngress
                   {| TierInfo_Name := "tierA"; IngressPolicies := ["polX"];
                      EgressPolicies := [] |}) by left.
  assert (Habsent : policies Scenario.afterA !! mkPolicyID "tierA" "polX" = None).
  { vm_compute. reflexivity. }
  split; [exact Htier|]. split; [exact Hpol|]. split; [exact Habsent|].
  exact (extractRules_absent_policy_panics Scenario.afterA (Tiers Scenario.epA)
           (ProfileIds Scenario.epA) PolDirnIngress _ "polX" Htier Hpol Habsent).
Defined.

(** *** Attaching and reconciling *)

(** tc failed and its output names a missing device: a warning, and nil. *)
Lemma AttachTCProgram_not_found (w : World) (fname : string) (ap : TCAttachPoint)
    (out : string) (e : error) :
  tcFilterAdd w fname ap = (out, Some e) →
  Contains out "Cannot find device" = true →
  repinJumpMaps w = true →
  AttachTCProgram w fname ap =
  Ok ([mkLogEntry LevelWarn
         "Failed to attach BPF program; interface not found.  Will retry if it show up."],
      None).
Proof. intros Htc Hout Hsweep. unfold AttachTCProgram. by rewrite Htc, Hout, Hsweep. Qed.

(** tc failed for another reason: the attach driver returns the error. *)
Lemma AttachTCProgram_other_failure (w : World) (fname : string) (ap : TCAttachPoint)
    (out : string) (e : error) :
  tcFilterAdd w fname ap = (out, Some e) →
  Contains out "Cannot find device" = false →
  repinJumpMaps w = true →
  AttachTCProgram w fname ap =
  Ok ([mkLogEntry LevelError "Failed to attach BPF program"], Some e).
Proof. intros Htc Hout Hsweep. unfold AttachTCProgram. by rewrite Htc, Hout, Hsweep. Qed.

(** The only error [compileAndAttachProgram] ever returns is the one of the
    compile step: after a failed attach it returns the error variable of the
    dump, which is nil. *)
Lemma compileAndAttachProgram_error (w : World) (m : bpfEndpointManager)
    (allRules : list (list (list Rule))) (ap : TCAttachPoint)
    (logs : list LogEntry) (e : error) :
  compileAndAttachProgram w m allRules ap = Ok (logs, Some e) →
  CompileTCProgramToFile w allRules ap (head (addrs (ifaceOf m (Iface ap)))) = Ok (Some e).
Proof.
  unfold compileAndAttachProgram. destruct (TempDir w) as [tempDir|]; [|done].
  destruct (CompileTCProgramToFile w allRules ap _) as [[e'|]|]; cbn; [congruence| |done].
  destruct (AttachTCProgram w _ ap) as [[logs' [e'|]]|]; cbn; [|done|done].
  by destruct (dumpProgram w allRules).
Qed.

(** The error a data-interface worker records is never the one of a
    failed attach: it comes from a compilation or from the write to
    accept_local. *)
Lemma dataIfaceWorker_error (w : World) (m : bpfEndpointManager) (iface : string)
    (e : error) :
  dataIfaceWorker w m iface = Ok (Some e) →
  (∃ rules ap ip, CompileTCProgramToFile w rules ap ip = Ok (Some e)) ∨
  setAcceptLocal w iface true = Some e.
Proof.
  unfold dataIfaceWorker, compileAndAttachDataIfaceProgram.
  destruct (calculateTCAttachPoint _ PolDirnIngress iface) as [apIn|]; [|done].
  destruct (calculateTCAttachPoint _ PolDirnEgress iface) as [apOut|].
  all: unfold mbind, Result_mbind, Result_bind; cbv beta.
  all: destruct (compileAndAttachProgram w m _ apIn) as [[logs [e1|]]|] eqn:Hin; try done.
  all: try (intros [= ->]; left; apply compileAndAttachProgram_error in Hin; by eauto).
  destruct (compileAndAttachProgram w m _ apOut) as [[logs' [e2|]]|] eqn:Hout; try done.
  + intros [= ->]. left. apply compileAndAttachProgram_error in Hout. eauto.
  + intros [= Hacc]. by right.
Qed.

(** The first pass over the dirty interfaces: what is left dirty, and the
    errors recorded. *)
Lemma dirtyIfaces_first_pass (w : World) (m : bpfEndpointManager) (l : list string)
    (dirty dirty' : gset string) (errs errs' : gmap string (option error)) :
  forM (λ '(dirty, errs) iface,
          if negb (dataIfaceRegex m iface) then Ok (dirty ∖ {[iface]}, errs)
          else if decide (epIface_State (ifaceOf m iface) ≠ StateUp)
          then Ok (dirty ∖ {[iface]}, errs)
          else
            err ← dataIfaceWorker w m iface;
            Ok (dirty, <[iface := err]> errs))
       (dirty, errs) l = Ok (dirty', errs') →
  (∀ i, i ∈ dirty' ↔
        i ∈ dirty ∧
        (i ∈ l → dataIfaceRegex m i = true ∧ epIface_State (ifaceOf m i) = StateUp)) ∧
  (∀ i, i ∈ l → dataIfaceRegex m i = true → epIface_State (ifaceOf m i) = StateUp →
        ∃ err, dataIfaceWorker w m i = Ok err ∧ errs' !! i = Some err) ∧
  (∀ i, errs' !! i = errs !! i ∨
        ∃ err, dataIfaceWorker w m i = Ok err ∧ errs' !! i = Some err).
Proof.
  revert dirty errs. induction l as [|iface l IH]; intros dirty errs Hrun.
  { injection Hrun as <- <-. split; [|split].
    - intros i. rewrite elem_of_nil. naive_solver.
    - intros i Hi. by apply elem_of_nil in Hi.
    - intros i. by left. }
  cbn [forM] in Hrun. unfold mbind, Result_mbind, Result_bind in Hrun.
  cbv beta iota in Hrun.
  destruct (dataIfaceRegex m iface) eqn:Hre; cbn [negb] in Hrun; cbv iota in Hrun.
  2:{ destruct (IH _ _ Hrun) as (Hd & He & Ho). split; [|split]; [| |exact Ho].
      - intros i. rewrite Hd, elem_of_cons, elem_of_difference, elem_of_singleton.
        destruct (decide (i = iface)) as [->|Hne].
        + split; [by intros [[_ []] _]|]. intros [_ Himp].
          destruct Himp as [? _]; [by left|congruence].
        + split; (intros [Hi Himp]; split; [tauto|]; intros ?; apply Himp; tauto).
      - intros i [->|Hi]%elem_of_cons ? ?; [congruence|by apply He]. }
  destruct (decide (epIface_State (ifaceOf m iface) ≠ StateUp)) as [Hdown|Hup].
  { destruct (IH _ _ Hrun) as (Hd & He & Ho). split; [|split]; [| |exact Ho].
    - intros i. rewrite Hd, elem_of_cons, elem_of_difference, elem_of_singleton.
      destruct (decide (i = iface)) as [->|Hne].
      + split; [by intros [[_ []] _]|]. intros [_ Himp].
        destruct Himp as [_ ?]; [by left|done].
      + split; (intros [Hi Himp]; split; [tauto|]; intros ?; apply Himp; tauto).
    - intros i [->|Hi]%elem_of_cons ? ?; [done|by apply He]. }
  apply dec_stable in Hup.
  destruct (dataIfaceWorker w m iface) as [err|] eqn:Hwork; [|done].
  destruct (IH _ _ Hrun) as (Hd & He & Ho). split; [|split].
  - intros i. rewrite Hd, elem_of_cons.
    split; (intros [Hi Himp]; split; [done|]).
    + intros [->|Hil]; [done|by apply Himp].
    + intros Hil. apply Himp. by right.
  - intros i Hi Hrei Hupi. destruct (decide (i ∈ l)) as [Hil|Hnil]; [by apply He|].
    apply elem_of_cons in Hi as [->|]; [|done].
    destruct (Ho iface) as [Hsame|Hnew]; [|done].
    exists err. split; [done|]. by rewrite Hsame, lookup_insert_eq.
  - intros i. destruct (Ho i) as [Hsame|Hnew]; [|by right].
    destruct (decide (i = iface)) as [->|Hne].
    + right. exists err. split; [done|]. by rewrite Hsame, lookup_insert_eq.
    + left. by rewrite Hsame, lookup_insert_ne.
Qed.
(** The second pass: an item stays dirty exactly when its recorded error is
    not nil. *)
Lemma dirty_second_pass `{Countable K} (errs : gmap K (option error)) (l : list K)
    (dirty : gset K) (i : K) :
  i ∈ foldl (λ dirty key,
               match errOf errs key with
               | None => dirty ∖ {[key]}
               | Some _ => dirty
               end) dirty l ↔
  i ∈ dirty ∧ ¬ (i ∈ l ∧ errOf errs i = None).
Proof.
  revert dirty. induction l as [|key l IH]; intros dirty; cbn.
  { rewrite elem_of_nil. naive_solver. }
  rewrite IH, elem_of_cons. destruct (errOf errs key) as [e|] eqn:Herr.
  - destruct (decide (i = key)) as [->|]; [rewrite Herr|]; naive_solver.
  - set_unfold. destruct (decide (i = key)) as [->|]; naive_solver.
Qed.

(** Reconciliation of the data interfaces, when no worker panics: an
    interface is dirty afterwards exactly when it was dirty, matches the
    pattern, is up, and its worker recorded an error. *)
Lemma reconcile_dirty_ifaces (w : World) (m m' : bpfEndpointManager) (i : string) :
  applyProgramsToDirtyDataInterfaces w m = Ok m' →
  i ∈ dirtyIfaces m' ↔
  i ∈ dirtyIfaces m ∧ dataIfaceRegex m i = true ∧
  epIface_State (ifaceOf m i) = StateUp ∧
  ∃ e, dataIfaceWorker w m i = Ok (Some e).
Proof.
  unfold applyProgramsToDirtyDataInterfaces.
  destruct (forM _ (dirtyIfaces m, ∅) (elements (dirtyIfaces m)))
    as [[dirty errs]|] eqn:Hfirst; [|done].
  unfold mbind, Result_mbind, Result_bind. intros [= <-].
  unfold set_dirtyIfaces. cbn [dirtyIfaces].
  apply dirtyIfaces_first_pass in Hfirst as (Hd & He & _).
  rewrite dirty_second_pass, Hd, !elem_of_elements, Hd, !elem_of_elements.
  split.
  - intros [[Hi Hup] Herr]. destruct (Hup Hi) as [Hre Hst].
    destruct (He i) as (err & Hwork & Hlook); [by apply elem_of_elements|done..|].
    repeat (split; [done|]).
    destruct err as [e|]; [by exists e|].
    destruct Herr. split; [done|]. unfold errOf. by rewrite Hlook.
  - intros (Hi & Hre & Hst & e & Hwork). split; [done|].
    intros [_ Herr].
    destruct (He i) as (err & Hwork' & Hlook); [by apply elem_of_elements|done..|].
    unfold errOf in Herr. rewrite Hlook in Herr. cbn in Herr. congruence.
Qed.

(** So an interface never stays dirty because an attach failed. *)
Lemma reconcile_dirty_iface_cause (w : World) (m m' : bpfEndpointManager) (i : string) :
  applyProgramsToDirtyDataInterfaces w m = Ok m' →
  i ∈ dirtyIfaces m' →
  ∃ e, (∃ rules ap ip, CompileTCProgramToFile w rules ap ip = Ok (Some e)) ∨
       setAcceptLocal w i true = Some e.
Proof.
  intros Hrun Hi. apply (reconcile_dirty_ifaces _ _ _ _ Hrun) in Hi as (_ & _ & _ & e & He).
  exists e. by apply (dataIfaceWorker_error w m).
Qed.

(** Scenario 5 of the specification: tc reports a missing device for eth0;
    the attach driver warns and returns nil, and the reconciliation takes
    eth0 out of the dirty set. *)
Example reconcile_interface_not_found :
  let w := Scenario.tcFails "Cannot find device eth0" in
  "eth0" ∈ dirtyIfaces Scenario.afterEth0Up ∧
  (∀ fname ap,
     AttachTCProgram w fname ap =
     Ok ([mkLogEntry LevelWarn
            "Failed to attach BPF program; interface not found.  Will retry if it show up."],
         None)) ∧
  ∃ m', applyProgramsToDirtyDataInterfaces w Scenario.afterEth0Up = Ok m' ∧
        "eth0" ∉ dirtyIfaces m'.
Proof.
  cbv zeta. split; [by_evaluation|]. split.
  - intros fname ap. by apply (AttachTCProgram_not_found _ _ _ "Cannot find device eth0"
                                  "exit status 2").
  - eexists. split; [vm_compute; reflexivity|]. by_evaluation.
Qed.

(** A failed compilation keeps eth0 dirty. *)
Example reconcile_compile_failure :
  ∃ m', applyProgramsToDirtyDataInterfaces Scenario.compileFails Scenario.afterEth0Up = Ok m' ∧
        "eth0" ∈ dirtyIfaces m'.
Proof. eexists. split; [vm_compute; reflexivity|]. by_evaluation. Qed.

(** C9, at the failing input: eth0 is up, matches the data-interface
    pattern and is dirty; the programs compile, and tc fails with an output
    that does not name a missing device.  The attach driver returns the
    error, yet [compileAndAttachDataIfaceProgram] returns nil for both
    directions and the reconciliation takes eth0 out of the dirty set. *)
Theorem attach_failure_clears_dirty_interface :
  let w := Scenario.tcFails "RTNETLINK answers: Operation not permitted" in
  "eth0" ∈ dirtyIfaces Scenario.afterEth0Up ∧
  Contains "RTNETLINK answers: Operation not permitted" "Cannot find device" = false ∧
  (∀ fname ap,
     AttachTCProgram w fname ap =
     Ok ([mkLogEntry LevelError "Failed to attach BPF program"], Some "exit status 2")) ∧
  (∀ direction, ∃ logs,
     compileAndAttachDataIfaceProgram w Scenario.afterEth0Up "eth0" direction =
     Ok (logs, None)) ∧
  ∃ m', applyProgramsToDirtyDataInterfaces w Scenario.afterEth0Up = Ok m' ∧
        "eth0" ∉ dirtyIfaces m'.
Proof.
  cbv zeta. split; [by_evaluation|]. split; [vm_compute; reflexivity|]. split; [|split].
  - intros fname ap.
    by apply (AttachTCProgram_other_failure _ _ _
                "RTNETLINK answers: Operation not permitted" "exit status 2").
  - intros []; eexists; vm_compute; reflexivity.
  - eexists. split; [vm_compute; reflexivity|]. by_evaluation.
Qed.

(** *** The extractor against the tree of the specification *)

Lemma extractPolicy_eq m direction tier acc polName :
  extractPolicy m direction tier acc polName =
  match policies m !! mkPolicyID (TierInfo_Name tier) polName with
  | Some pol => Ok (acc ++ [policyRules direction pol])
  | None => Panic
  end.
Proof. unfold extractPolicy. destruct (policies m !! _); [|done]. by destruct direction. Qed.

Lemma extractProfile_eq m direction acc profName :
  extractProfile m direction acc profName =
  match profiles m !! mkProfileID profName with
  | Some prof => Ok (acc ++ [profileRules direction prof])
  | None => Panic
  end.
Proof. unfold extractProfile. destruct (profiles m !! _); [|done]. by destruct direction. Qed.

Lemma extractPolicies_spec m direction tier pols acc :
  forM (extractPolicy m direction tier) acc pols =
  match mapM (λ polName,
                policyRules direction <$>
                  policies m !! mkPolicyID (TierInfo_Name tier) polName) pols with
  | Some rules => Ok (acc ++ rules)
  | None => Panic
  end.
Proof.
  revert acc. induction pols as [|polName pols IH]; intros acc.
  { cbn. by rewrite app_nil_r. }
  cbn. rewrite extractPolicy_eq.
  destruct (policies m !! _) as [pol|]; cbn; [|done].
  rewrite IH.
  destruct (mapM _ pols) as [rules|]; cbn; [|done]. by rewrite <- app_assoc.
Qed.

Lemma extractTier_spec m direction allRules tier :
  extractTier m direction allRules tier =
  if decide (directionalPolicies direction tier = []) then Ok allRules
  else match tierRules m direction tier with
       | Some rules => Ok (allRules ++ [rules])
       | None => Panic
       end.
Proof.
  unfold extractTier, tierRules. rewrite directionalPols_eq.
  destruct (directionalPolicies direction tier) as [|polName pols] eqn:Hpols; [done|].
  rewrite decide_False by done. rewrite decide_False by done.
  rewrite extractPolicies_spec. by destruct (mapM _ _).
Qed.

Lemma extractTiers_spec m direction tiers acc :
  forM (extractTier m direction) acc tiers =
  match mapM (tierRules m direction) (activeTiers direction tiers) with
  | Some trees => Ok (acc ++ trees)
  | None => Panic
  end.
Proof.
  unfold activeTiers. revert acc. induction tiers as [|tier tiers IH]; intros acc.
  { cbn. by rewrite app_nil_r. }
  cbn [forM]. rewrite extractTier_spec, filter_cons.
  destruct (decide (directionalPolicies direction tier = [])) as [Hempty|Hpols].
  - rewrite decide_False by (by intros ?). cbn. apply IH.
  - rewrite decide_True by done. cbn.
    destruct (tierRules m direction tier) as [rules|]; cbn; [|done].
    rewrite IH. destruct (mapM _ _) as [trees|]; cbn; [|done]. by rewrite <- app_assoc.
Qed.

Lemma extractProfiles_spec m direction profileNames acc :
  forM (extractProfile m direction) acc profileNames =
  match profilesRules m direction profileNames with
  | Some rules => Ok (acc ++ rules)
  | None => Panic
  end.
Proof.
  unfold profilesRules. revert acc.
  induction profileNames as [|profName names IH]; intros acc.
  { cbn. by rewrite app_nil_r. }
  cbn. rewrite extractProfile_eq.
  destruct (profiles m !! _) as [prof|]; cbn; [|done].
  rewrite IH.
  destruct (mapM _ names) as [rules|]; cbn; [|done]. by rewrite <- app_assoc.
Qed.

Lemma extractRules_spec m tiers profileNames direction :
  extractRules m tiers profileNames direction =
  match rulesTree m tiers profileNames direction with
  | Some tree => Ok tree
  | None => Panic
  end.
Proof.
  unfold extractRules, rulesTree.
  rewrite extractTiers_spec.
  destruct (mapM _ (activeTiers direction tiers)) as [trees|]; cbn; [|done].
  rewrite extractProfiles_spec. by destruct (profilesRules _ _ _).
Qed.

Lemma rulesTree_is_Some m tiers profileNames direction :
  is_Some (rulesTree m tiers profileNames direction) ↔
  rulesCached m tiers profileNames direction.
Proof.
  unfold rulesTree, rulesCached, profilesRules, tierRules, activeTiers.
  split.
  - intros [tree Htree].
    destruct (mapM _ (filter _ tiers)) as [trees|] eqn:Htiers; cbn in Htree; [|done].
    destruct (mapM _ profileNames) as [profs|] eqn:Hprofs; cbn in Htree; [|done].
    split.
    + intros tier polName Htier Hpol.
      assert (Hall := mapM_is_Some_1 _ _ (mk_is_Some _ _ Htiers)).
      rewrite Forall_forall in Hall.
      assert (Hact : tier ∈ filter (λ t, directionalPolicies direction t ≠ []) tiers).
      { apply list_elem_of_filter. split; [|done]. intros Hnil.
        rewrite Hnil in Hpol. by apply elem_of_nil in Hpol. }
      apply Hall in Hact. cbn in Hact. apply mapM_is_Some_1 in Hact.
      rewrite Forall_forall in Hact. apply Hact in Hpol. cbn in Hpol.
      by apply fmap_is_Some in Hpol.
    + intros profName Hin.
      assert (Hall := mapM_is_Some_1 _ _ (mk_is_Some _ _ Hprofs)).
      rewrite Forall_forall in Hall. apply Hall in Hin. cbn in Hin.
      by apply fmap_is_Some in Hin.
  - intros [Hpols Hprofs].
    destruct (mapM_is_Some_2
                (λ tier, mapM (λ polName,
                                 policyRules direction <$>
                                   policies m !! mkPolicyID (TierInfo_Name tier) polName)
                              (directionalPolicies direction tier))
                (filter (λ t, directionalPolicies direction t ≠ []) tiers))
      as [trees ->].
    { apply Forall_forall. intros tier [_ Htier]%list_elem_of_filter. cbn.
      apply mapM_is_Some_2, Forall_forall. intros polName Hpol. cbn.
      apply fmap_is_Some. by apply Hpols. }
    destruct (mapM_is_Some_2
                (λ profName, profileRules direction <$> profiles m !! mkProfileID profName)
                profileNames) as [profs ->].
    { apply Forall_forall. intros profName Hin. cbn. apply fmap_is_Some. by apply Hprofs. }
    cbn. eauto.
Qed.

(** *** Reconciliation of the workload endpoints and the whole pass *)

Lemma applyProgramsToDirtyDataInterfaces_frame (w : World) (m m' : bpfEndpointManager) :
  applyProgramsToDirtyDataInterfaces w m = Ok m' →
  m' = set_dirtyIfaces (dirtyIfaces m') m.
Proof.
  unfold applyProgramsToDirtyDataInterfaces.
  destruct (forM _ (dirtyIfaces m, ∅) (elements (dirtyIfaces m)))
    as [[dirty errs]|]; [|done].
  unfold mbind, Result_mbind, Result_bind. by intros [= <-].
Qed.

Lemma record_errors `{Countable K} (f : K → Result (option error)) (l : list K)
    (errs errs' : gmap K (option error)) :
  forM (λ errs key, err ← f key; Ok (<[key := err]> errs)) errs l = Ok errs' →
  (∀ key, key ∈ l → ∃ err, f key = Ok err ∧ errs' !! key = Some err) ∧
  (∀ key, errs' !! key = errs !! key ∨ ∃ err, f key = Ok err ∧ errs' !! key = Some err).
Proof.
  revert errs. induction l as [|k l IH]; intros errs Hrun.
  { injection Hrun as <-. split; [|by left]. intros key Hin. by apply elem_of_nil in Hin. }
  cbn [forM] in Hrun. unfold mbind, Result_mbind, Result_bind in Hrun.
  destruct (f k) as [err|] eqn:Hk; [|done].
  destruct (IH _ Hrun) as [Hin Hall]. split.
  - intros key Hkey. destruct (decide (key ∈ l)) as [Hl|Hnl]; [by apply Hin|].
    apply elem_of_cons in Hkey as [->|]; [|done].
    destruct (Hall k) as [Hsame|Hnew]; [|done].
    exists err. split; [done|]. by rewrite Hsame, lookup_insert_eq.
  - intros key. destruct (Hall key) as [Hsame|Hnew]; [|by right].
    destruct (decide (key = k)) as [->|Hne].
    + right. exists err. split; [done|]. by rewrite Hsame, lookup_insert_eq.
    + left. by rewrite Hsame, lookup_insert_ne.
Qed.

Lemma record_errors_panic `{Countable K} (f : K → Result (option error)) (l : list K)
    (errs : gmap K (option error)) (key : K) :
  key ∈ l → f key = Panic →
  forM (λ errs key, err ← f key; Ok (<[key := err]> errs)) errs l = Panic.
Proof.
  intros Hin Hpanic. revert errs. induction l as [|k l IH]; intros errs.
  { by apply elem_of_nil in Hin. }
  cbn [forM]. unfold mbind, Result_mbind, Result_bind.
  apply elem_of_cons in Hin as [<-|Hin]; [by rewrite Hpanic|].
  destruct (f k); [by apply IH|done].
Qed.

Lemma reconcile_dirty_workloads (w : World) (m m' : bpfEndpointManager)
    (id : WorkloadEndpointID) :
  applyProgramsToDirtyWorkloadEndpoints w m = Ok m' →
  id ∈ dirtyWorkloads m' ↔
  id ∈ dirtyWorkloads m ∧ ∃ e, applyPolicy w m id = Ok (Some e).
Proof.
  unfold applyProgramsToDirtyWorkloadEndpoints.
  destruct (forM _ ∅ (elements (dirtyWorkloads m))) as [errs|] eqn:Hfirst; [|done].
  unfold mbind, Result_mbind, Result_bind. intros [= <-].
  unfold set_dirtyWorkloads. cbn [dirtyWorkloads].
  apply (record_errors (applyPolicy w m)) in Hfirst as [Hin _].
  rewrite dirty_second_pass, elem_of_elements. split.
  - intros [Hid Herr]. split; [done|].
    destruct (Hin id) as ([e|] & Hwork & Hlook); [by apply elem_of_elements|by exists e|].
    destruct Herr. split; [done|]. unfold errOf. by rewrite Hlook.
  - intros (Hid & e & Hwork). split; [done|]. intros [_ Herr].
    destruct (Hin id) as (err & Hwork' & Hlook); [by apply elem_of_elements|].
    unfold errOf in Herr. rewrite Hlook in Herr. cbn in Herr. congruence.
Qed.

Lemma applyProgramsToDirtyWorkloadEndpoints_frame (w : World) (m m' : bpfEndpointManager) :
  applyProgramsToDirtyWorkloadEndpoints w m = Ok m' →
  m' = set_dirtyWorkloads (dirtyWorkloads m') m.
Proof.
  unfold applyProgramsToDirtyWorkloadEndpoints.
  destruct (forM _ ∅ (elements (dirtyWorkloads m))) as [errs|]; [|done].
  unfold mbind, Result_mbind, Result_bind. by intros [= <-].
Qed.

Lemma compileAndAttachWorkloadProgram_error (w : World) (m : bpfEndpointManager)
    (wep : WorkloadEndpoint) (direction : PolDirection) (logs : list LogEntry) (e : error) :
  compileAndAttachWorkloadProgram w m wep direction = Ok (logs, Some e) →
  ∃ rules ap ip, CompileTCProgramToFile w rules ap ip = Ok (Some e).
Proof.
  unfold compileAndAttachWorkloadProgram, mbind, Result_mbind, Result_bind.
  destruct (extractRules m _ _ direction) as [rules|]; [|done].
  destruct (calculateTCAttachPoint _ direction _) as [ap|]; [|done].
  intros Hrun. apply compileAndAttachProgram_error in Hrun. eauto.
Qed.

Lemma applyPolicy_error (w : World) (m : bpfEndpointManager) (id : WorkloadEndpointID)
    (e : error) :
  applyPolicy w m id = Ok (Some e) →
  ∃ rules ap ip, CompileTCProgramToFile w rules ap ip = Ok (Some e).
Proof.
  unfold applyPolicy. destruct (wlEps m !! id) as [wep|]; [|done].
  unfold mbind, Result_mbind, Result_bind.
  destruct (compileAndAttachWorkloadProgram w m wep PolDirnIngress)
    as [[logsIn [eIn|]]|] eqn:Hin; [| |done].
  - destruct (compileAndAttachWorkloadProgram w m wep PolDirnEgress)
      as [[logsOut errOut]|]; [|done].
    intros [= ->]. by apply compileAndAttachWorkloadProgram_error in Hin.
  - destruct (compileAndAttachWorkloadProgram w m wep PolDirnEgress)
      as [[logsOut [eOut|]]|] eqn:Hout; [| |done].
    + intros [= ->]. by apply compileAndAttachWorkloadProgram_error in Hout.
    + done.
Qed.

Lemma extractTiers_absent_rules (m : bpfEndpointManager) (tiers : list TierInfo)
    (profileNames : list string) (direction : PolDirection) (tier : TierInfo)
    (polName : string) :
  tier ∈ tiers →
  polName ∈ directionalPolicies direction tier →
  policies m !! mkPolicyID (TierInfo_Name tier) polName = None →
  extractRules m tiers profileNames direction = Panic.
Proof.
  intros Htier Hpol Habsent. unfold extractRules.
  by rewrite (extractTiers_absent _ _ _ tier polName).
Qed.

Lemma applyPolicy_uncached_policy (w : World) (m : bpfEndpointManager)
    (id : WorkloadEndpointID) (wep : WorkloadEndpoint) (direction : PolDirection)
    (tier : TierInfo) (polName : string) :
  wlEps m !! id = Some wep →
  tier ∈ Tiers wep →
  polName ∈ directionalPolicies direction tier →
  policies m !! mkPolicyID (TierInfo_Name tier) polName = None →
  applyPolicy w m id = Panic.
Proof.
  intros Hwep Htier Hpol Habsent. unfold applyPolicy. rewrite Hwep.
  assert (Hpanic : compileAndAttachWorkloadProgram w m wep direction = Panic).
  { unfold compileAndAttachWorkloadProgram.
    by rewrite (extractTiers_absent_rules m (Tiers wep) (ProfileIds wep) direction
                  tier polName). }
  unfold mbind, Result_mbind, Result_bind.
  destruct direction.
  - by rewrite Hpanic.
  - rewrite Hpanic. by destruct (compileAndAttachWorkloadProgram w m wep PolDirnIngress) as [[? ?]|].
Qed.

Lemma CompleteDeferredWork_inv (w : World) (m m' : bpfEndpointManager) :
  CompleteDeferredWork w m = Ok m' →
  ∃ dirty,
    applyProgramsToDirtyDataInterfaces w m = Ok (set_dirtyIfaces dirty m) ∧
    applyProgramsToDirtyWorkloadEndpoints w (set_dirtyIfaces dirty m) = Ok m'.
Proof.
  unfold CompleteDeferredWork, mbind, Result_mbind, Result_bind.
  destruct (applyProgramsToDirtyDataInterfaces w m) as [m1|] eqn:Hfirst; [|done].
  intros Hsecond. exists (dirtyIfaces m1).
  by rewrite <- (applyProgramsToDirtyDataInterfaces_frame w m m1 Hfirst).
Qed.

Lemma CompleteDeferredWork_char (w : World) (m m' : bpfEndpointManager) :
  CompleteDeferredWork w m = Ok m' →
  (∀ i, i ∈ dirtyIfaces m' ↔
        i ∈ dirtyIfaces m ∧ dataIfaceRegex m i = true ∧
        epIface_State (ifaceOf m i) = StateUp ∧
        ∃ e, dataIfaceWorker w m i = Ok (Some e)) ∧
  (∀ id, id ∈ dirtyWorkloads m' ↔
         id ∈ dirtyWorkloads m ∧ ∃ e, applyPolicy w m id = Ok (Some e)) ∧
  m' = set_dirtyWorkloads (dirtyWorkloads m') (set_dirtyIfaces (dirtyIfaces m') m).
Proof.
  intros (dirty & Hfirst & Hsecond)%CompleteDeferredWork_inv.
  assert (Hframe := applyProgramsToDirtyWorkloadEndpoints_frame _ _ _ Hsecond).
  assert (Hifaces : dirtyIfaces m' = dirty) by (by rewrite Hframe).
  split; [|split].
  - intros i. rewrite Hifaces.
    by rewrite <- (reconcile_dirty_ifaces w m (set_dirtyIfaces dirty m) i Hfirst).
  - intros id. by rewrite (reconcile_dirty_workloads _ _ _ id Hsecond).
  - by rewrite Hifaces.
Qed.

(** X1: a pass of [CompleteDeferredWork] that returns changes nothing but
    the two dirty sets.  An interface stays dirty exactly when it was dirty,
    matches the data-interface pattern, is up and its worker recorded an
    error; an endpoint id stays dirty exactly when it was dirty and
    [applyPolicy] returned an error for it. *)
Theorem CompleteDeferredWork_dirty_sets (w : World) (m m' : bpfEndpointManager) :
  CompleteDeferredWork w m = Ok m' →
  (∀ i, i ∈ dirtyIfaces m' ↔
        i ∈ dirtyIfaces m ∧ dataIfaceRegex m i = true ∧
        epIface_State (ifaceOf m i) = StateUp ∧
        ∃ e, dataIfaceWorker w m i = Ok (Some e)) ∧
  (∀ id, id ∈ dirtyWorkloads m' ↔
         id ∈ dirtyWorkloads m ∧ ∃ e, applyPolicy w m id = Ok (Some e)) ∧
  m' = set_dirtyWorkloads (dirtyWorkloads m') (set_dirtyIfaces (dirtyIfaces m') m).
Proof. apply CompleteDeferredWork_char. Qed.

Lemma CompleteDeferredWork_dirty_sets_witness :
  CompleteDeferredWork Scenario.calm Fixture.eth0AndGhost = Ok Fixture.allClean ∧
  (∀ i, i ∈ dirtyIfaces Fixture.allClean ↔
        i ∈ dirtyIfaces Fixture.eth0AndGhost ∧
        dataIfaceRegex Fixture.eth0AndGhost i = true ∧
        epIface_State (ifaceOf Fixture.eth0AndGhost i) = StateUp ∧
        ∃ e, dataIfaceWorker Scenario.calm Fixture.eth0AndGhost i = Ok (Some e)) ∧
  (∀ id, id ∈ dirtyWorkloads Fixture.allClean ↔
         id ∈ dirtyWorkloads Fixture.eth0AndGhost ∧
         ∃ e, applyPolicy Scenario.calm Fixture.eth0AndGhost id = Ok (Some e)) ∧
  Fixture.allClean =
    set_dirtyWorkloads (dirtyWorkloads Fixture.allClean)
      (set_dirtyIfaces (dirtyIfaces Fixture.allClean) Fixture.eth0AndGhost).
Proof.
  assert (Hrun : CompleteDeferredWork Scenario.calm Fixture.eth0AndGhost
                 = Ok Fixture.allClean) by (vm_compute; reflexivity).
  split; [exact Hrun|].
  exact (CompleteDeferredWork_dirty_sets Scenario.calm Fixture.eth0AndGhost
           Fixture.allClean Hrun).
Defined.

(** X2: whatever stays dirty after a pass of [CompleteDeferredWork] stays so
    because a compilation failed or, for an interface, because the write to
    accept_local failed; a failed attach never keeps an item dirty. *)
Theorem CompleteDeferredWork_dirty_cause (w : World) (m m' : bpfEndpointManager) :
  CompleteDeferredWork w m = Ok m' →
  (∀ i, i ∈ dirtyIfaces m' →
        ∃ e, (∃ rules ap ip, CompileTCProgramToFile w rules ap ip = Ok (Some e)) ∨
             setAcceptLocal w i true = Some e) ∧
  (∀ id, id ∈ dirtyWorkloads m' →
         ∃ e rules ap ip, CompileTCProgramToFile w rules ap ip = Ok (Some e)).
Proof.
  intros (Hifaces & Hwls & _)%CompleteDeferredWork_char. split.
  - intros i (_ & _ & _ & e & He)%Hifaces. exists e. by apply (dataIfaceWorker_error w m).
  - intros id (_ & e & He)%Hwls. exists e. by apply (applyPolicy_error w m id).
Qed.

Lemma CompleteDeferredWork_dirty_cause_witness :
  CompleteDeferredWork Scenario.compileFails Scenario.afterEth0Up = Ok Scenario.afterEth0Up ∧
  (∀ i, i ∈ dirtyIfaces Scenario.afterEth0Up →
        ∃ e, (∃ rules ap ip,
                CompileTCProgramToFile Scenario.compileFails rules ap ip = Ok (Some e)) ∨
             setAcceptLocal Scenario.compileFails i true = Some e) ∧
  (∀ id, id ∈ dirtyWorkloads Scenario.afterEth0Up →
         ∃ e rules ap ip,
           CompileTCProgramToFile Scenario.compileFails rules ap ip = Ok (Some e)).
Proof.
  assert (Hrun : CompleteDeferredWork Scenario.compileFails Scenario.afterEth0Up
                 = Ok Scenario.afterEth0Up) by (vm_compute; reflexivity).
  split; [exact Hrun|].
  exact (CompleteDeferredWork_dirty_cause Scenario.compileFails Scenario.afterEth0Up
           Scenario.afterEth0Up Hrun).
Defined.

Lemma CompleteDeferredWork_uncached_policy (w : World) (m : bpfEndpointManager)
    (id : WorkloadEndpointID) (wep : WorkloadEndpoint) (direction : PolDirection)
    (tier : TierInfo) (polName : string) :
  id ∈ dirtyWorkloads m →
  wlEps m !! id = Some wep →
  tier ∈ Tiers wep →
  polName ∈ directionalPolicies direction tier →
  policies m !! mkPolicyID (TierInfo_Name tier) polName = None →
  CompleteDeferredWork w m = Panic.
Proof.
  intros Hdirty Hwep Htier Hpol Habsent.
  unfold CompleteDeferredWork, mbind, Result_mbind, Result_bind.
  destruct (applyProgramsToDirtyDataInterfaces w m) as [m1|] eqn:Hfirst; [|done].
  rewrite (applyProgramsToDirtyDataInterfaces_frame w m m1 Hfirst).
  unfold applyProgramsToDirtyWorkloadEndpoints.
  rewrite (record_errors_panic (applyPolicy w (set_dirtyIfaces (dirtyIfaces m1) m))
             _ _ id); [done| |].
  - by apply elem_of_elements.
  - by apply (applyPolicy_uncached_policy w _ id wep direction tier polName).
Qed.

(** X3: a pass of [CompleteDeferredWork] over a dirty endpoint whose cached
    version names, in a tier's ingress or egress list, a policy that is not
    in the policy cache panics. *)
Theorem CompleteDeferredWork_uncached_policy_panics (w : World) (m : bpfEndpointManager)
    (id : WorkloadEndpointID) (wep : WorkloadEndpoint) (direction : PolDirection)
    (tier : TierInfo) (polName : string) :
  id ∈ dirtyWorkloads m →
  wlEps m !! id = Some wep →
  tier ∈ Tiers wep →
  polName ∈ directionalPolicies direction tier →
  policies m !! mkPolicyID (TierInfo_Name tier) polName = None →
  CompleteDeferredWork w m = Panic.
Proof. apply CompleteDeferredWork_uncached_policy. Qed.

Lemma CompleteDeferredWork_uncached_policy_panics_witness :
  Scenario.wl1 ∈ dirtyWorkloads Scenario.afterA ∧
  wlEps Scenario.afterA !! Scenario.wl1 = Some Scenario.epA ∧
  {| TierInfo_Name := "tierA"; IngressPolicies := ["polX"]; EgressPolicies := [] |}
    ∈ Tiers Scenario.epA ∧
  "polX" ∈ directionalPolicies PolDirnIngress
             {| TierInfo_Name := "tierA"; IngressPolicies := ["polX"]; EgressPolicies := [] |} ∧
  policies Scenario.afterA !! mkPolicyID "tierA" "polX" = None ∧
  CompleteDeferredWork Scenario.calm Scenario.afterA = Panic.
Proof.
  assert (Hdirty : Scenario.wl1 ∈ dirtyWorkloads Scenario.afterA) by by_evaluation.
  assert (Hwep : wlEps Scenario.afterA !! Scenario.wl1 = Some Scenario.epA).
  { vm_compute. reflexivity. }
  assert (Htier : {| TierInfo_Name := "tierA"; IngressPolicies := ["polX"];
                     EgressPolicies := [] |} ∈ Tiers Scenario.epA) by left.
  assert (Hpol : "polX" ∈ directionalPolicies PolDirnIngress
                   {| TierInfo_Name := "tierA"; IngressPolicies := ["polX"];
                      EgressPolicies := [] |}) by left.
  assert (Habsent : policies Scenario.afterA !! mkPolicyID "tierA" "polX" = None).
  { vm_compute. reflexivity. }
  repeat (split; [assumption|]).
  exact (CompleteDeferredWork_uncached_policy_panics Scenario.calm Scenario.afterA
           Scenario.wl1 Scenario.epA PolDirnIngress _ "polX"
           Hdirty Hwep Htier Hpol Habsent).
Defined.

(** *** Dispatching and reconciling in any order *)

Lemma CompleteDeferredWork_caches (w : World) (m m' : bpfEndpointManager) :
  CompleteDeferredWork w m = Ok m' →
  wlEps m' = wlEps m ∧ policiesToWorkloads m' = policiesToWorkloads m.
Proof. intros (_ & _ & ->)%CompleteDeferredWork_char. done. Qed.

Lemma call_sound (w : World) (m m' : bpfEndpointManager) (c : Call) :
  policyIndexSound m → call w m c = Ok m' → policyIndexSound m'.
Proof.
  destruct c as [msg|w']; cbn; [apply OnUpdate_sound|].
  intros Hsound [Hw Hp]%CompleteDeferredWork_caches p id.
  unfold cachedRefsPolicy. rewrite Hw, Hp. apply Hsound.
Qed.

Lemma call_complete (w : World) (m m' : bpfEndpointManager) (c : Call) (p : PolicyID) :
  c ≠ CallOnUpdate (MsgActivePolicyRemove (mkActivePolicyRemove p)) →
  policyIndexComplete m p → call w m c = Ok m' → policyIndexComplete m' p.
Proof.
  destruct c as [msg|w']; cbn.
  - intros Hne. apply OnUpdate_complete. congruence.
  - intros _ Hcomplete [Hw Hp]%CompleteDeferredWork_caches id.
    unfold cachedRefsPolicy. rewrite Hw, Hp. apply Hcomplete.
Qed.

Lemma calls_policy_index (w : World) (cs : list Call) (m m' : bpfEndpointManager)
    (p : PolicyID) :
  CallOnUpdate (MsgActivePolicyRemove (mkActivePolicyRemove p)) ∉ cs →
  policyIndexSound m → policyIndexComplete m p →
  calls w m cs = Ok m' →
  policyIndexSound m' ∧ policyIndexComplete m' p.
Proof.
  unfold calls. revert m.
  induction cs as [|c cs IH]; intros m Hcs Hsound Hcomplete Hrun.
  { by injection Hrun as <-. }
  cbn [forM] in Hrun. unfold mbind, Result_mbind, Result_bind in Hrun.
  destruct (call w m c) as [m1|] eqn:Hstep; [|done].
  apply not_elem_of_cons in Hcs as [Hc Hcs].
  apply (IH m1); [done| | |done].
  - by apply (call_sound w m m1 c).
  - by apply (call_complete w m m1 c p).
Qed.

Lemma dirtyWorkloads_onPolicyUpdate (m : bpfEndpointManager) (msg : ActivePolicyUpdate) :
  dirtyWorkloads (onPolicyUpdate m msg) =
  usersOf (policiesToWorkloads m) (ActivePolicyUpdate_Id msg) ∪ dirtyWorkloads m.
Proof.
  unfold onPolicyUpdate, markPolicyUsersDirty, usersOf. cbn.
  destruct (policiesToWorkloads m !! ActivePolicyUpdate_Id msg); cbn; [done|set_solver].
Qed.

(** X4: after any sequence of [OnUpdate] and [CompleteDeferredWork] calls on
    a new manager that it survives and that removes policy [p] at no point,
    an update of [p] leaves dirty exactly the endpoints that were dirty
    and those whose cached version references [p]. *)
Theorem policy_update_marks_users_dirty (w : World) (dataIfaceRegex : string → bool)
    (cs : list Call) (m : bpfEndpointManager) (p : PolicyID) (pol : Policy)
    (id : WorkloadEndpointID) :
  calls w (newBPFEndpointManager dataIfaceRegex) cs = Ok m →
  CallOnUpdate (MsgActivePolicyRemove (mkActivePolicyRemove p)) ∉ cs →
  id ∈ dirtyWorkloads (onPolicyUpdate m (mkActivePolicyUpdate p pol)) ↔
  id ∈ dirtyWorkloads m ∨ cachedRefsPolicy m id p.
Proof.
  intros Hrun Hcs.
  destruct (calls_policy_index w cs (newBPFEndpointManager dataIfaceRegex) m p)
    as [Hsound Hcomplete]; [done| | |done|].
  { intros p0 id0 Hin. unfold usersOf in Hin. cbn in Hin.
    rewrite lookup_empty in Hin. set_solver. }
  { intros id0 (wl & Hwl & _). cbn in Hwl. by rewrite lookup_empty in Hwl. }
  rewrite dirtyWorkloads_onPolicyUpdate, elem_of_union. cbn. split.
  - intros [Hin|Hin]; [right; by apply Hsound|by left].
  - intros [Hin|Hin]; [by right|left; by apply Hcomplete].
Qed.

Lemma policy_update_marks_users_dirty_witness :
  calls Scenario.calm (newBPFEndpointManager Scenario.ethPattern)
    [CallOnUpdate Scenario.updProf1; CallOnUpdate Scenario.updPolX;
     CallOnUpdate Scenario.updA; CallCompleteDeferredWork Scenario.calm]
  = Ok Fixture.reconciled ∧
  (CallOnUpdate (MsgActivePolicyRemove (mkActivePolicyRemove Scenario.polX)) ∉
     [CallOnUpdate Scenario.updProf1; CallOnUpdate Scenario.updPolX;
      CallOnUpdate Scenario.updA; CallCompleteDeferredWork Scenario.calm]) ∧
  (Scenario.wl1 ∈ dirtyWorkloads
                    (onPolicyUpdate Fixture.reconciled
                       (mkActivePolicyUpdate Scenario.polX Scenario.polX_v1)) ↔
   Scenario.wl1 ∈ dirtyWorkloads Fixture.reconciled ∨
   cachedRefsPolicy Fixture.reconciled Scenario.wl1 Scenario.polX).
Proof.
  assert (Hrun : calls Scenario.calm (newBPFEndpointManager Scenario.ethPattern)
                   [CallOnUpdate Scenario.updProf1; CallOnUpdate Scenario.updPolX;
                    CallOnUpdate Scenario.updA; CallCompleteDeferredWork Scenario.calm]
                 = Ok Fixture.reconciled) by (vm_compute; reflexivity).
  assert (Hnone : CallOnUpdate (MsgActivePolicyRemove (mkActivePolicyRemove Scenario.polX)) ∉
                    [CallOnUpdate Scenario.updProf1; CallOnUpdate Scenario.updPolX;
                     CallOnUpdate Scenario.updA; CallCompleteDeferredWork Scenario.calm]).
  { rewrite !elem_of_cons, elem_of_nil. intros [?|[?|[?|[?|[]]]]]; discriminate. }
  split; [exact Hrun|]. split; [exact Hnone|].
  exact (policy_update_marks_users_dirty Scenario.calm Scenario.ethPattern _
           Fixture.reconciled Scenario.polX Scenario.polX_v1 Scenario.wl1 Hrun Hnone).
Defined.

Lemma OnUpdate_dirty (w : World) (m m' : bpfEndpointManager) (msg : Msg) :
  OnUpdate w m msg = Ok m' →
  dirtyWorkloads m ⊆ dirtyWorkloads m' ∧ dirtyIfaces m ⊆ dirtyIfaces m' ∧
  (∀ id, msgEndpoint msg = Some id → id ∈ dirtyWorkloads m') ∧
  (∀ name, msgIface msg = Some name → name ∈ dirtyIfaces m').
Proof.
  destruct msg as [u|u|u|u|u|u|u|u|]; cbn.
  - intros [= <-]. unfold onInterfaceUpdate.
    destruct (decide _); cbn; (repeat split; [set_solver..|]); intros ? [= <-]; set_solver.
  - intros [= <-]. unfold onInterfaceAddrsUpdate.
    destruct (Addrs u); cbn; (repeat split; [set_solver..|]); intros ? [= <-]; set_solver.
  - intros [= <-]. rewrite onWorkloadEndpointUpdate_eq. cbn.
    split; [set_solver|]. split; [done|]. split; [|done]. intros ? [= <-]. set_solver.
  - destruct (wlEps m !! WorkloadEndpointRemove_Id u) as [wl|] eqn:Hwl.
    + rewrite (onWorkloadEnpdointRemove_eq m u wl Hwl). intros [= <-]. cbn.
      split; [set_solver|]. split; [done|]. split; [|done]. intros ? [= <-]. set_solver.
    + unfold onWorkloadEnpdointRemove. by rewrite Hwl.
  - intros [= <-]. unfold onPolicyUpdate, markPolicyUsersDirty. cbn.
    destruct (policiesToWorkloads m !! _); cbn; (repeat split; [set_solver..|done]).
  - intros [= <-]. unfold onPolicyRemove, markPolicyUsersDirty. cbn.
    destruct (policiesToWorkloads m !! _); cbn; (repeat split; [set_solver..|done]).
  - intros [= <-]. unfold onProfileUpdate, markProfileUsersDirty. cbn.
    destruct (profilesToWorkloads m !! _); cbn; (repeat split; [set_solver..|done]).
  - intros [= <-]. unfold onProfileRemove, markProfileUsersDirty. cbn.
    destruct (profilesToWorkloads m !! _); cbn; (repeat split; [set_solver..|done]).
  - intros [= <-]. done.
Qed.

(** X5: the dispatcher only ever adds to the dirty sets: after a surviving
    sequence of updates everything that was dirty still is, and so is every
    endpoint an update or remove of the sequence named and every interface
    a state or address update named. *)
Theorem dispatch_marks_dirty (w : World) (msgs : list Msg) (m m' : bpfEndpointManager) :
  OnUpdates w m msgs = Ok m' →
  dirtyWorkloads m ⊆ dirtyWorkloads m' ∧ dirtyIfaces m ⊆ dirtyIfaces m' ∧
  (∀ msg id, msg ∈ msgs → msgEndpoint msg = Some id → id ∈ dirtyWorkloads m') ∧
  (∀ msg name, msg ∈ msgs → msgIface msg = Some name → name ∈ dirtyIfaces m').
Proof.
  unfold OnUpdates. revert m. induction msgs as [|msg msgs IH]; intros m Hrun.
  { injection Hrun as <-. repeat split; [done..| |]; intros ? ? Hin; by apply elem_of_nil in Hin. }
  cbn [forM] in Hrun. unfold mbind, Result_mbind, Result_bind in Hrun.
  destruct (OnUpdate w m msg) as [m1|] eqn:Hstep; [|done].
  apply OnUpdate_dirty in Hstep as (Hw & Hi & Hid & Hname).
  destruct (IH m1 Hrun) as (Hw' & Hi' & Hid' & Hname').
  split; [set_solver|]. split; [set_solver|]. split.
  - intros msg0 id [->|Hin]%elem_of_cons Hsubj; [|by eapply Hid'].
    apply Hw'. by apply Hid.
  - intros msg0 name [->|Hin]%elem_of_cons Hsubj; [|by eapply Hname'].
    apply Hi'. by apply Hname.
Qed.

Lemma dispatch_marks_dirty_witness :
  OnUpdates Scenario.calm Scenario.fresh [Scenario.eth0Up; Scenario.updA]
  = Ok (onWorkloadEndpointUpdate Scenario.afterEth0Up
          (mkWorkloadEndpointUpdate Scenario.wl1 Scenario.epA)) ∧
  Scenario.wl1 ∈ dirtyWorkloads
                   (onWorkloadEndpointUpdate Scenario.afterEth0Up
                      (mkWorkloadEndpointUpdate Scenario.wl1 Scenario.epA)) ∧
  "eth0" ∈ dirtyIfaces
             (onWorkloadEndpointUpdate Scenario.afterEth0Up
                (mkWorkloadEndpointUpdate Scenario.wl1 Scenario.epA)).
Proof.
  assert (Hrun : OnUpdates Scenario.calm Scenario.fresh [Scenario.eth0Up; Scenario.updA]
                 = Ok (onWorkloadEndpointUpdate Scenario.afterEth0Up
                         (mkWorkloadEndpointUpdate Scenario.wl1 Scenario.epA)))
    by reflexivity.
  split; [exact Hrun|].
  destruct (dispatch_marks_dirty Scenario.calm _ _ _ Hrun) as (_ & _ & Hid & Hname).
  split.
  - apply (Hid Scenario.updA); [right; left|reflexivity].
  - apply (Hname Scenario.eth0Up); [left|reflexivity].
Defined.

(** X6: after any sequence of [OnUpdate] and [CompleteDeferredWork] calls on
    a new manager that it survives and that removes policy [p] at no point,
    removing [p] while the cached version of some endpoint still references
    it makes the next [CompleteDeferredWork] panic: the remove marks the
    endpoint dirty and erases the policy the extractor will look up. *)
Theorem policy_remove_then_reconcile_panics (w w' : World)
    (dataIfaceRegex : string → bool) (cs : list Call) (m : bpfEndpointManager)
    (p : PolicyID) (id : WorkloadEndpointID) :
  calls w (newBPFEndpointManager dataIfaceRegex) cs = Ok m →
  CallOnUpdate (MsgActivePolicyRemove (mkActivePolicyRemove p)) ∉ cs →
  cachedRefsPolicy m id p →
  calls w m [CallOnUpdate (MsgActivePolicyRemove (mkActivePolicyRemove p));
             CallCompleteDeferredWork w'] = Panic.
Proof.
  intros Hrun Hcs Href.
  destruct (calls_policy_index w cs (newBPFEndpointManager dataIfaceRegex) m p)
    as [_ Hcomplete]; [done| | |done|].
  { intros p0 id0 Hin. unfold usersOf in Hin. cbn in Hin.
    rewrite lookup_empty in Hin. set_solver. }
  { intros id0 (wl & Hwl & _). cbn in Hwl. by rewrite lookup_empty in Hwl. }
  pose proof (Hcomplete id Href) as Huser.
  destruct Href as (wl & Hwl & tier & Htier & Hname & Hpols).
  unfold calls. cbn [forM call OnUpdate].
  unfold mbind, Result_mbind, Result_bind.
  set (m2 := onPolicyRemove m (mkActivePolicyRemove p)).
  assert (Hdirty : id ∈ dirtyWorkloads m2).
  { subst m2. unfold onPolicyRemove, markPolicyUsersDirty. cbn.
    unfold usersOf in Huser.
    destruct (policiesToWorkloads m !! p) as [wls|]; cbn in *; set_solver. }
  assert (Hwl2 : wlEps m2 !! id = Some wl).
  { subst m2. by destruct (onPolicyRemove_caches m (mkActivePolicyRemove p)) as [-> _]. }
  assert (Habsent : policies m2 !! mkPolicyID (TierInfo_Name tier) (PolicyID_Name p) = None).
  { subst m2. unfold onPolicyRemove. cbn. destruct p as [ptier pname]. cbn in *.
    subst ptier. apply lookup_delete_eq. }
  destruct Hpols as [Hin|Hin].
  - by rewrite (CompleteDeferredWork_uncached_policy w' m2 id wl PolDirnIngress tier
                  (PolicyID_Name p)).
  - by rewrite (CompleteDeferredWork_uncached_policy w' m2 id wl PolDirnEgress tier
                  (PolicyID_Name p)).
Qed.

Lemma policy_remove_then_reconcile_panics_witness :
  calls Scenario.calm (newBPFEndpointManager Scenario.ethPattern)
    [CallOnUpdate Scenario.updProf1; CallOnUpdate Scenario.updPolX;
     CallOnUpdate Scenario.updA; CallCompleteDeferredWork Scenario.calm]
  = Ok Fixture.reconciled ∧
  (CallOnUpdate (MsgActivePolicyRemove (mkActivePolicyRemove Scenario.polX)) ∉
     [CallOnUpdate Scenario.updProf1; CallOnUpdate Scenario.updPolX;
      CallOnUpdate Scenario.updA; CallCompleteDeferredWork Scenario.calm]) ∧
  cachedRefsPolicy Fixture.reconciled Scenario.wl1 Scenario.polX ∧
  calls Scenario.calm Fixture.reconciled
    [CallOnUpdate (MsgActivePolicyRemove (mkActivePolicyRemove Scenario.polX));
     CallCompleteDeferredWork Scenario.calm] = Panic.
Proof.
  assert (Hrun : calls Scenario.calm (newBPFEndpointManager Scenario.ethPattern)
                   [CallOnUpdate Scenario.updProf1; CallOnUpdate Scenario.updPolX;
                    CallOnUpdate Scenario.updA; CallCompleteDeferredWork Scenario.calm]
                 = Ok Fixture.reconciled) by (vm_compute; reflexivity).
  assert (Hnone : CallOnUpdate (MsgActivePolicyRemove (mkActivePolicyRemove Scenario.polX)) ∉
                    [CallOnUpdate Scenario.updProf1; CallOnUpdate Scenario.updPolX;
                     CallOnUpdate Scenario.updA; CallCompleteDeferredWork Scenario.calm]).
  { rewrite !elem_of_cons, elem_of_nil. intros [?|[?|[?|[?|[]]]]]; discriminate. }
  assert (Href : cachedRefsPolicy Fixture.reconciled Scenario.wl1 Scenario.polX).
  { exists Scenario.epA. split; [vm_compute; reflexivity|].
    eexists. split; [left|]. split; [reflexivity|]. left. left. }
  split; [exact Hrun|]. split; [exact Hnone|]. split; [exact Href|].
  exact (policy_remove_then_reconcile_panics Scenario.calm Scenario.calm
           Scenario.ethPattern _ Fixture.reconciled Scenario.polX Scenario.wl1
           Hrun Hnone Href).
Defined.

(** *** Interfaces *)

(** X7: after a state update the state read back for the interface is the
    one of the update; its addresses are kept, except that an update to
    Unknown forgets the entry and with it the addresses.  No other interface
    changes, the interface is marked dirty, and the caches and indexes of
    the datamodel stay as they are. *)
Theorem onInterfaceUpdate_reads_back (m : bpfEndpointManager) (update : ifaceUpdate) :
  let m' := onInterfaceUpdate m update in
  let name := ifaceUpdate_Name update in
  epIface_State (ifaceOf m' name) = ifaceUpdate_State update ∧
  addrs (ifaceOf m' name) =
    (if decide (ifaceUpdate_State update = StateUnknown) then []
     else addrs (ifaceOf m name)) ∧
  (ifaces m' !! name = None ↔ ifaceUpdate_State update = StateUnknown) ∧
  (∀ other, other ≠ name → ifaces m' !! other = ifaces m !! other) ∧
  dirtyIfaces m' = {[name]} ∪ dirtyIfaces m ∧
  m' = set_dirtyIfaces (dirtyIfaces m') (set_ifaces (ifaces m') m).
Proof.
  intros m' name. subst m' name. unfold onInterfaceUpdate, ifaceOf.
  destruct (decide (ifaceUpdate_State update = StateUnknown)) as [Hunk|Hknown]; cbn.
  - rewrite lookup_delete_eq. cbn. repeat split; try done.
    intros other Hne. by rewrite lookup_delete_ne.
  - rewrite lookup_insert_eq. cbn. repeat split; try done.
    intros other Hne. by rewrite lookup_insert_ne.
Qed.

Lemma ifaceOf_lookup (m : bpfEndpointManager) (name : string) (iface : epIface) :
  ifaces m !! name = Some iface → ifaceOf m name = iface.
Proof. intros Hlook. unfold ifaceOf. by rewrite Hlook. Qed.

Lemma parsed_addrs (parse : string → option IP) (strs : list string) (acc : list IP) :
  foldl (λ addrs str,
           match parse str with
           | None => addrs
           | Some ip => addrs ++ [ip]
           end) acc strs = acc ++ omap parse strs.
Proof.
  revert acc. induction strs as [|str strs IH]; intros acc; cbn.
  { by rewrite app_nil_r. }
  rewrite IH. destruct (parse str); [|done]. by rewrite <- app_assoc.
Qed.

(** X8: an address update without an address set changes nothing, not even
    the dirty set.  Otherwise the addresses read back for the interface are
    the IPv4 addresses among the strings, in their order, whatever was
    stored before; the state of the interface is kept, no other interface
    changes, and the interface is marked dirty. *)
Theorem onInterfaceAddrsUpdate_reads_back (w : World) (m : bpfEndpointManager)
    (update : ifaceAddrsUpdate) :
  let m' := onInterfaceAddrsUpdate w m update in
  let name := ifaceAddrsUpdate_Name update in
  match Addrs update with
  | None => m' = m
  | Some strs =>
      addrs (ifaceOf m' name) = omap (parseIPv4 w) strs ∧
      epIface_State (ifaceOf m' name) = epIface_State (ifaceOf m name) ∧
      (∀ other, other ≠ name → ifaces m' !! other = ifaces m !! other) ∧
      dirtyIfaces m' = {[name]} ∪ dirtyIfaces m ∧
      m' = set_dirtyIfaces (dirtyIfaces m') (set_ifaces (ifaces m') m)
  end.
Proof.
  intros m' name. subst m' name. unfold onInterfaceAddrsUpdate.
  destruct (Addrs update) as [strs|]; [|done].
  rewrite parsed_addrs. cbn [app].
  match goal with
  | |- context [ifaceOf ?m' (ifaceAddrsUpdate_Name update)] =>
      match m' with
      | set_dirtyIfaces _ (set_ifaces (<[_ := ?iface]> _) _) =>
          assert (Hread : ifaceOf m' (ifaceAddrsUpdate_Name update) = iface)
            by (apply ifaceOf_lookup; cbn; apply lookup_insert_eq)
      end
  end.
  rewrite !Hread. cbn. repeat split; try done.
  intros other Hne. by rewrite lookup_insert_ne.
Qed.

(** *** More on the endpoint handlers *)

Lemma update_twice_same_but_profile_index_aux (m : bpfEndpointManager)
    (msg : WorkloadEndpointUpdate) :
  set_profilesToWorkloads
    (profilesToWorkloads (onWorkloadEndpointUpdate m msg))
    (onWorkloadEndpointUpdate (onWorkloadEndpointUpdate m msg) msg) =
  onWorkloadEndpointUpdate m msg.
Proof.
  rewrite (onWorkloadEndpointUpdate_eq (onWorkloadEndpointUpdate m msg) msg).
  rewrite (onWorkloadEndpointUpdate_eq m msg). cbn.
  rewrite lookup_insert_eq, insert_insert_eq.
  apply manager_ext; cbn; try done.
  - apply add_discard_add.
  - set_solver.
Qed.

(** X9: applying an endpoint update a second time changes nothing except,
    possibly, the profile index: the endpoint, policy and profile caches,
    the interfaces, the policy index and both dirty sets are left as the
    first application left them. *)
Theorem update_twice_same_but_profile_index (m : bpfEndpointManager)
    (msg : WorkloadEndpointUpdate) :
  let once := onWorkloadEndpointUpdate m msg in
  let twice := onWorkloadEndpointUpdate once msg in
  set_profilesToWorkloads (profilesToWorkloads once) twice = once.
Proof.
  intros once twice. apply update_twice_same_but_profile_index_aux.
Qed.

(** X10: for an endpoint with at least one tier, applying its update a second
    time leaves the whole manager state as the first application left it. *)
Theorem update_twice_same_state (m : bpfEndpointManager) (msg : WorkloadEndpointUpdate) :
  Tiers (Endpoint msg) ≠ [] →
  onWorkloadEndpointUpdate (onWorkloadEndpointUpdate m msg) msg =
  onWorkloadEndpointUpdate m msg.
Proof.
  intros Htiers.
  pose proof (update_twice_profiles m msg Htiers) as Hprof. cbv zeta in Hprof.
  pose proof (update_twice_same_but_profile_index_aux m msg) as Haux.
  rewrite <- Hprof in Haux. unfold set_profilesToWorkloads in Haux.
  by rewrite manager_eta in Haux.
Qed.

Lemma update_twice_same_state_witness :
  Tiers (Endpoint (mkWorkloadEndpointUpdate Scenario.wl1 Scenario.epA)) ≠ [] ∧
  onWorkloadEndpointUpdate
    (onWorkloadEndpointUpdate Scenario.fresh
       (mkWorkloadEndpointUpdate Scenario.wl1 Scenario.epA))
    (mkWorkloadEndpointUpdate Scenario.wl1 Scenario.epA) =
  onWorkloadEndpointUpdate Scenario.fresh
    (mkWorkloadEndpointUpdate Scenario.wl1 Scenario.epA).
Proof.
  assert (Htiers : Tiers (Endpoint (mkWorkloadEndpointUpdate Scenario.wl1 Scenario.epA)) ≠ [])
    by discriminate.
  split; [exact Htiers|].
  exact (update_twice_same_state Scenario.fresh
           (mkWorkloadEndpointUpdate Scenario.wl1 Scenario.epA) Htiers).
Defined.

(** X11: the remove of a cached endpoint returns.  It erases that endpoint
    and no other from the cache, takes its id out of the set of exactly the
    policies its cached version referenced, marks it dirty, and leaves the
    policy and profile caches, the interfaces and the profile index as they
    were. *)
Theorem remove_cached_endpoint (m : bpfEndpointManager) (msg : WorkloadEndpointRemove)
    (wl : WorkloadEndpoint) :
  wlEps m !! WorkloadEndpointRemove_Id msg = Some wl →
  ∃ m',
    onWorkloadEnpdointRemove m msg = Ok m' ∧
    wlEps m' !! WorkloadEndpointRemove_Id msg = None ∧
    (∀ id', id' ≠ WorkloadEndpointRemove_Id msg → wlEps m' !! id' = wlEps m !! id') ∧
    (∀ p id', id' ∈ usersOf (policiesToWorkloads m') p ↔
              id' ∈ usersOf (policiesToWorkloads m) p ∧
              ¬ (id' = WorkloadEndpointRemove_Id msg ∧ refsPolicy wl p)) ∧
    dirtyWorkloads m' = {[WorkloadEndpointRemove_Id msg]} ∪ dirtyWorkloads m ∧
    m' = set_dirtyWorkloads (dirtyWorkloads m')
           (set_policiesToWorkloads (policiesToWorkloads m') (set_wlEps (wlEps m') m)).
Proof.
  intros Hwl. eexists. split; [by apply onWorkloadEnpdointRemove_eq|]. cbn.
  split; [apply lookup_delete_eq|].
  split; [intros id' Hne; by apply lookup_delete_ne|].
  split; [|done].
  intros p id'. by rewrite elem_of_usersOf_discard, elem_of_policyEdges.
Qed.

Lemma remove_cached_endpoint_witness :
  wlEps Scenario.afterA !! Scenario.wl1 = Some Scenario.epA ∧
  ∃ m',
    onWorkloadEnpdointRemove Scenario.afterA (mkWorkloadEndpointRemove Scenario.wl1) = Ok m' ∧
    wlEps m' !! Scenario.wl1 = None ∧
    (∀ id', id' ≠ Scenario.wl1 → wlEps m' !! id' = wlEps Scenario.afterA !! id') ∧
    (∀ p id', id' ∈ usersOf (policiesToWorkloads m') p ↔
              id' ∈ usersOf (policiesToWorkloads Scenario.afterA) p ∧
              ¬ (id' = Scenario.wl1 ∧ refsPolicy Scenario.epA p)) ∧
    dirtyWorkloads m' = {[Scenario.wl1]} ∪ dirtyWorkloads Scenario.afterA ∧
    m' = set_dirtyWorkloads (dirtyWorkloads m')
           (set_policiesToWorkloads (policiesToWorkloads m')
              (set_wlEps (wlEps m') Scenario.afterA)).
Proof.
  assert (Hcached : wlEps Scenario.afterA !! Scenario.wl1 = Some Scenario.epA).
  { vm_compute. reflexivity. }
  split; [exact Hcached|].
  exact (remove_cached_endpoint Scenario.afterA (mkWorkloadEndpointRemove Scenario.wl1)
           Scenario.epA Hcached).
Defined.

(** X12: once a remove has returned, a second remove of the same id panics. *)
Theorem remove_twice_panics (m m' : bpfEndpointManager) (msg : WorkloadEndpointRemove) :
  onWorkloadEnpdointRemove m msg = Ok m' →
  onWorkloadEnpdointRemove m' msg = Panic.
Proof.
  destruct (wlEps m !! WorkloadEndpointRemove_Id msg) as [wl|] eqn:Hwl.
  - rewrite (onWorkloadEnpdointRemove_eq m msg wl Hwl). intros [= <-].
    unfold onWorkloadEnpdointRemove. cbn. by rewrite lookup_delete_eq.
  - unfold onWorkloadEnpdointRemove. by rewrite Hwl.
Qed.

Lemma remove_twice_panics_witness :
  onWorkloadEnpdointRemove Scenario.afterA (mkWorkloadEndpointRemove Scenario.wl1)
    = Ok Fixture.afterARemoved ∧
  onWorkloadEnpdointRemove Fixture.afterARemoved (mkWorkloadEndpointRemove Scenario.wl1)
    = Panic.
Proof.
  assert (Hfirst : onWorkloadEnpdointRemove Scenario.afterA
                     (mkWorkloadEndpointRemove Scenario.wl1) = Ok Fixture.afterARemoved)
    by (vm_compute; reflexivity).
  split; [exact Hfirst|].
  exact (remove_twice_panics Scenario.afterA Fixture.afterARemoved
           (mkWorkloadEndpointRemove Scenario.wl1) Hfirst).
Defined.

Lemma calls_sound (w : World) (cs : list Call) (m m' : bpfEndpointManager) :
  policyIndexSound m → calls w m cs = Ok m' → policyIndexSound m'.
Proof.
  unfold calls. revert m. induction cs as [|c cs IH]; intros m Hsound Hrun.
  { by injection Hrun as <-. }
  cbn [forM] in Hrun. unfold mbind, Result_mbind, Result_bind in Hrun.
  destruct (call w m c) as [m1|] eqn:Hstep; [|done].
  apply (IH m1); [|done]. by apply (call_sound w m m1 c).
Qed.

(** X13: after any sequence of [OnUpdate] and [CompleteDeferredWork] calls on
    a new manager that it survives, an endpoint update re-points the policy
    index: the endpoint is listed under a policy exactly when its new
    version references that policy, and the entries of the other endpoints
    are not touched. *)
Theorem update_repoints_policy_index (w : World) (dataIfaceRegex : string → bool)
    (cs : list Call) (m : bpfEndpointManager) (u : WorkloadEndpointUpdate) (p : PolicyID) :
  calls w (newBPFEndpointManager dataIfaceRegex) cs = Ok m →
  (WorkloadEndpointUpdate_Id u ∈ usersOf (policiesToWorkloads (onWorkloadEndpointUpdate m u)) p ↔
   refsPolicy (Endpoint u) p) ∧
  (∀ id', id' ≠ WorkloadEndpointUpdate_Id u →
          id' ∈ usersOf (policiesToWorkloads (onWorkloadEndpointUpdate m u)) p ↔
          id' ∈ usersOf (policiesToWorkloads m) p).
Proof.
  intros Hrun.
  assert (Hsound : policyIndexSound m).
  { apply (calls_sound w cs (newBPFEndpointManager dataIfaceRegex)); [|done].
    intros p0 id0 Hin. unfold usersOf in Hin. cbn in Hin.
    rewrite lookup_empty in Hin. set_solver. }
  split.
  - rewrite elem_of_usersOf_update. split; [|by left].
    intros [[_ Href]|[Hin Hnot]]; [done|]. destruct Hnot. split; [done|]. by apply Hsound.
  - intros id' Hne. rewrite elem_of_usersOf_update. split.
    + by intros [[? _]|[? _]].
    + intros Hin. right. split; [done|]. by intros [? _].
Qed.

Lemma update_repoints_policy_index_witness :
  calls Scenario.calm (newBPFEndpointManager Scenario.ethPattern)
    [CallOnUpdate Scenario.updProf1; CallOnUpdate Scenario.updPolX;
     CallOnUpdate Scenario.updA; CallCompleteDeferredWork Scenario.calm]
  = Ok Fixture.reconciled ∧
  (Scenario.wl1 ∈ usersOf (policiesToWorkloads
                             (onWorkloadEndpointUpdate Fixture.reconciled
                                (mkWorkloadEndpointUpdate Scenario.wl1 Scenario.epB)))
                    Scenario.polX ↔
   refsPolicy Scenario.epB Scenario.polX).
Proof.
  assert (Hrun : calls Scenario.calm (newBPFEndpointManager Scenario.ethPattern)
                   [CallOnUpdate Scenario.updProf1; CallOnUpdate Scenario.updPolX;
                    CallOnUpdate Scenario.updA; CallCompleteDeferredWork Scenario.calm]
                 = Ok Fixture.reconciled) by (vm_compute; reflexivity).
  split; [exact Hrun|].
  exact (proj1 (update_repoints_policy_index Scenario.calm Scenario.ethPattern _
                  Fixture.reconciled (mkWorkloadEndpointUpdate Scenario.wl1 Scenario.epB)
                  Scenario.polX Hrun)).
Defined.

(** *** The extractor, in general *)

(** X14: the extractor computes the tree of the specification: one entry
    per tier whose directional policy list is not empty, in the order of the
    tiers, holding the directional rule list of each named policy in the
    order of the names, and then the profiles tier; it panics exactly when
    one of those policies or profiles is not cached. *)
Theorem extractRules_builds_rulesTree (m : bpfEndpointManager) (tiers : list TierInfo)
    (profileNames : list string) (direction : PolDirection) :
  extractRules m tiers profileNames direction =
  match rulesTree m tiers profileNames direction with
  | Some tree => Ok tree
  | None => Panic
  end.
Proof. apply extractRules_spec. Qed.

(** X15: the extractor returns a tree exactly when every policy named in the
    directional list of a tier and every profile of the endpoint is in the
    cache, and panics otherwise. *)
Theorem extractRules_returns_iff (m : bpfEndpointManager) (tiers : list TierInfo)
    (profileNames : list string) (direction : PolDirection) :
  ((∃ tree, extractRules m tiers profileNames direction = Ok tree) ↔
   rulesCached m tiers profileNames direction) ∧
  (extractRules m tiers profileNames direction = Panic ↔
   ¬ rulesCached m tiers profileNames direction).
Proof.
  rewrite extractRules_spec, <- rulesTree_is_Some.
  destruct (rulesTree m tiers profileNames direction) as [tree|]; split; split.
  - intros _. by exists tree.
  - intros _. by exists tree.
  - done.
  - intros Hnot. destruct Hnot. by exists tree.
  - by intros [tree' ?].
  - by intros [tree' ?].
  - by intros _ [tree' ?].
  - done.
Qed.

(** X16: a tree the extractor returns has one entry per tier with a non-empty
    directional list and a last entry for the profiles; the entry of a tier
    has as many rule lists as the tier names policies, and the last entry as
    many as the endpoint has profile names, duplicates included. *)
Theorem extractRules_shape (m : bpfEndpointManager) (tiers : list TierInfo)
    (profileNames : list string) (direction : PolDirection)
    (tree : list (list (list Rule))) :
  extractRules m tiers profileNames direction = Ok tree →
  ∃ tierTrees profs,
    tree = tierTrees ++ [profs] ∧
    length profs = length profileNames ∧
    Forall2 (λ tier pols, length pols = length (directionalPolicies direction tier))
            (activeTiers direction tiers) tierTrees.
Proof.
  rewrite extractRules_spec. unfold rulesTree, profilesRules.
  destruct (mapM _ (activeTiers direction tiers)) as [tierTrees|] eqn:Htiers; [|done].
  cbn. destruct (mapM _ profileNames) as [profs|] eqn:Hprofs; [|done].
  cbn. intros [= <-]. exists tierTrees, profs. split; [done|]. split.
  - symmetry. by eapply length_mapM.
  - apply mapM_Some_1 in Htiers. eapply Forall2_impl; [exact Htiers|].
    intros tier pols Hpols. unfold tierRules in Hpols.
    by apply length_mapM in Hpols.
Qed.

Lemma extractRules_shape_witness :
  extractRules Fixture.twoTiersCached (Tiers Fixture.epTwoTiers)
    (ProfileIds Fixture.epTwoTiers) PolDirnIngress
  = Ok [[[Scenario.R1]; [Scenario.R2]]; [[Scenario.R2]]] ∧
  ∃ tierTrees profs,
    [[[Scenario.R1]; [Scenario.R2]]; [[Scenario.R2]]] = tierTrees ++ [profs] ∧
    length profs = length (ProfileIds Fixture.epTwoTiers) ∧
    Forall2 (λ tier pols, length pols = length (directionalPolicies PolDirnIngress tier))
            (activeTiers PolDirnIngress (Tiers Fixture.epTwoTiers)) tierTrees.
Proof.
  assert (Hrun : extractRules Fixture.twoTiersCached (Tiers Fixture.epTwoTiers)
                   (ProfileIds Fixture.epTwoTiers) PolDirnIngress
                 = Ok [[[Scenario.R1]; [Scenario.R2]]; [[Scenario.R2]]])
    by (vm_compute; reflexivity).
  split; [exact Hrun|].
  exact (extractRules_shape _ _ _ _ _ Hrun).
Defined.

(** *** Attach points and program specialisation *)

(** X17: in the flags of every attach point the host-endpoint bit is set
    exactly for the kinds other than Workload, the ingress bit exactly when
    the policy direction is ingress (whichever hook that is), the tunnel bit
    exactly for the kind Tunnel, and the cgroup bit never. *)
Theorem attach_point_flag_bits (endpointType : EndpointType)
    (policyDirection : PolDirection) (ifaceName : string) :
  ∃ ap,
    calculateTCAttachPoint endpointType policyDirection ifaceName = Ok ap ∧
    Z.land (CompileFlags ap) CompileFlagHostEp =
      (if decide (endpointType = EpTypeWorkload) then 0 else CompileFlagHostEp) ∧
    Z.land (CompileFlags ap) CompileFlagIngress =
      (if decide (policyDirection = PolDirnIngress) then CompileFlagIngress else 0) ∧
    Z.land (CompileFlags ap) CompileFlagTunnel =
      (if decide (endpointType = EpTypeTunnel) then CompileFlagTunnel else 0) ∧
    Z.land (CompileFlags ap) CompileFlagCgroup = 0 ∧
    0 ≤ CompileFlags ap < 8.
Proof.
  destruct endpointType, policyDirection; eexists;
    (split; [vm_compute; reflexivity|]); cbn; repeat split; done.
Qed.

Lemma BPFSectionName_cases (endpointType : EndpointType) (fromOrTo : ToOrFromEp) :
  BPFSectionName endpointType fromOrTo ∈
    [BPFSectionName EpTypeWorkload FromEp; BPFSectionName EpTypeWorkload ToEp;
     BPFSectionName EpTypeHost FromEp; BPFSectionName EpTypeHost ToEp;
     BPFSectionName EpTypeTunnel FromEp; BPFSectionName EpTypeTunnel ToEp].
Proof.
  destruct endpointType, fromOrTo; rewrite !elem_of_cons; auto 10.
Qed.

(** X18: the flags lookup panics exactly for the section names that are not
    the name of an endpoint kind and direction; for those names it returns. *)
Theorem BPFSectionToFlags_unknown_section (section : string) :
  BPFSectionToFlags section = Panic ↔
  ∀ endpointType fromOrTo, section ≠ BPFSectionName endpointType fromOrTo.
Proof.
  unfold BPFSectionToFlags, bpfSectionToFlags. cbv zeta.
  destruct (decide (section ∈
              [BPFSectionName EpTypeWorkload FromEp; BPFSectionName EpTypeWorkload ToEp;
               BPFSectionName EpTypeHost FromEp; BPFSectionName EpTypeHost ToEp;
               BPFSectionName EpTypeTunnel FromEp; BPFSectionName EpTypeTunnel ToEp]))
    as [Hin|Hnin].
  - assert (Hsome : is_Some
              ((<[BPFSectionName EpTypeTunnel ToEp:=Z.lor CompileFlagHostEp CompileFlagTunnel]>
                 (<[BPFSectionName EpTypeTunnel FromEp:=
                      Z.lor (Z.lor CompileFlagHostEp CompileFlagIngress) CompileFlagTunnel]>
                    (<[BPFSectionName EpTypeHost ToEp:=CompileFlagHostEp]>
                       (<[BPFSectionName EpTypeHost FromEp:=
                            Z.lor CompileFlagHostEp CompileFlagIngress]>
                          (<[BPFSectionName EpTypeWorkload ToEp:=CompileFlagIngress]>
                             (<[BPFSectionName EpTypeWorkload FromEp:=0]>
                                (∅ : gmap string Z))))))) !! section)).
    { rewrite !lookup_insert_is_Some'. rewrite !elem_of_cons in Hin.
      destruct Hin as [->|[->|[->|[->|[->|[->|Hin]]]]]]; [auto 10..|].
      by apply elem_of_nil in Hin. }
    destruct Hsome as [flags ->]. split; [done|]. intros Hall.
    rewrite !elem_of_cons in Hin.
    destruct Hin as [Heq|[Heq|[Heq|[Heq|[Heq|[Heq|Hin]]]]]];
      [by apply Hall in Heq..|by apply elem_of_nil in Hin].
  - rewrite !lookup_insert_ne.
    2-7: intros Heq; apply Hnin; rewrite <- Heq, !elem_of_cons; auto 10.
    rewrite lookup_empty. split; [|done]. intros _ endpointType fromOrTo ->.
    apply Hnin, BPFSectionName_cases.
Qed.

(** X19: the program of a data interface is compiled from the single rule
    Allow and attached with the section and flags of the kind Host, or of
    the kind Tunnel for the interface tunl0, at the hook equal to the policy
    direction; the program of a workload endpoint is compiled from the tree
    extracted for it and attached with the workload section at the opposite
    hook. *)
Theorem program_specialisation (w : World) (m : bpfEndpointManager)
    (ifaceName : string) (endpoint : WorkloadEndpoint) (polDirection : PolDirection) :
  let toOrFrom h := if decide (h = TCHookIngress) then FromEp else ToEp in
  let attachPoint kind hook name flags :=
    {| Section_ := BPFSectionName kind (toOrFrom hook); Hook := hook;
       Iface := name; CompileFlags := flags |} in
  let hostFlags :=
    if decide (polDirection = PolDirnIngress)
    then Z.lor CompileFlagHostEp CompileFlagIngress else CompileFlagHostEp in
  compileAndAttachDataIfaceProgram w m ifaceName polDirection =
    compileAndAttachProgram w m [[[ {| Action := "Allow" |} ]]]
      (if decide (ifaceName = "tunl0")
       then attachPoint EpTypeTunnel (sameHook polDirection) ifaceName
              (Z.lor hostFlags CompileFlagTunnel)
       else attachPoint EpTypeHost (sameHook polDirection) ifaceName hostFlags) ∧
  compileAndAttachWorkloadProgram w m endpoint polDirection =
    (rules ← extractRules m (Tiers endpoint) (ProfileIds endpoint) polDirection;
     compileAndAttachProgram w m rules
       (attachPoint EpTypeWorkload (oppositeHook polDirection)
          (WorkloadEndpoint_Name endpoint)
          (if decide (polDirection = PolDirnIngress) then CompileFlagIngress else 0))).
Proof.
  cbv zeta. split.
  - unfold compileAndAttachDataIfaceProgram.
    destruct (decide (ifaceName = "tunl0")), polDirection; reflexivity.
  - unfold compileAndAttachWorkloadProgram, mbind, Result_mbind, Result_bind.
    destruct (extractRules m _ _ polDirection); [|done].
    destruct polDirection; reflexivity.
Qed.

(** *** The command lines *)

Lemma hexDigitValue_hexDigit (k : Z) :
  0 ≤ k < 16 → hexDigitValue (hexDigit k) = Some k.
Proof.
  intros Hk.
  assert (Hcases : k = 0 ∨ k = 1 ∨ k = 2 ∨ k = 3 ∨ k = 4 ∨ k = 5 ∨ k = 6 ∨ k = 7 ∨
                   k = 8 ∨ k = 9 ∨ k = 10 ∨ k = 11 ∨ k = 12 ∨ k = 13 ∨ k = 14 ∨ k = 15)
    by lia.
  repeat (destruct Hcases as [->|Hcases]; [reflexivity|]). by subst k.
Qed.

Lemma hexValueFrom_fmt_02x (acc b : Z) (s : string) :
  0 ≤ b < 256 →
  hexValueFrom acc (fmt_02x b +:+ s) = hexValueFrom (acc * 256 + b) s.
Proof.
  intros Hb. unfold fmt_02x. simpl.
  assert (Hhi : 0 ≤ b `div` 16 < 16).
  { split; [apply Z.div_pos; lia|apply Z.div_lt_upper_bound; lia]. }
  assert (Hlo : 0 ≤ b `mod` 16 < 16) by (apply Z.mod_pos_bound; lia).
  rewrite !hexDigitValue_hexDigit by done.
  f_equal. pose proof (Z.div_mod b 16 ltac:(lia)). lia.
Qed.

(** X20: for a 4-byte address the host-IP option appends one define,
    CALI_HOST_IP=0x followed by eight hexadecimal digits, and changes no
    other option; read as a number the digits are the 32-bit value whose
    little-endian bytes are the address.  A 16-byte address with the
    IPv4-in-IPv6 prefix gives the same option as its last four bytes. *)
Theorem CompileWithHostIP_little_endian (a b c d : Z) (opts : compileTCOpts) :
  0 ≤ a < 256 → 0 ≤ b < 256 → 0 ≤ c < 256 → 0 ≤ d < 256 →
  ∃ digits,
    CompileWithHostIP [a; b; c; d] opts =
      {| extraArgs := extraArgs opts ++ ["-DCALI_HOST_IP=0x" +:+ digits];
         dir := dir opts; srcFile := srcFile opts; outFile := outFile opts;
         bpftool := bpftool opts |} ∧
    String.length digits = 8%nat ∧
    hexValue digits = Some (littleEndian32 a b c d) ∧
    CompileWithHostIP (replicate 10 0 ++ [255; 255; a; b; c; d]) opts =
      CompileWithHostIP [a; b; c; d] opts.
Proof.
  intros Ha Hb Hc Hd.
  exists (fmt_02x d +:+ fmt_02x c +:+ fmt_02x b +:+ fmt_02x a).
  split; [reflexivity|]. split; [reflexivity|]. split; [|reflexivity].
  unfold hexValue, littleEndian32.
  rewrite !hexValueFrom_fmt_02x by done.
  replace (fmt_02x a) with (fmt_02x a +:+ "") by (unfold fmt_02x; reflexivity).
  rewrite hexValueFrom_fmt_02x by done. cbn. f_equal. lia.
Qed.

Lemma CompileWithHostIP_little_endian_witness :
  (0 ≤ 10 < 256) ∧ (0 ≤ 0 < 256) ∧ (0 ≤ 2 < 256) ∧ (0 ≤ 15 < 256) ∧
  ∃ digits,
    CompileWithHostIP [10; 0; 2; 15] (compileOptsOf []) =
      {| extraArgs := extraArgs (compileOptsOf []) ++ ["-DCALI_HOST_IP=0x" +:+ digits];
         dir := dir (compileOptsOf []); srcFile := srcFile (compileOptsOf []);
         outFile := outFile (compileOptsOf []); bpftool := bpftool (compileOptsOf []) |} ∧
    String.length digits = 8%nat ∧
    hexValue digits = Some (littleEndian32 10 0 2 15) ∧
    CompileWithHostIP (replicate 10 0 ++ [255; 255; 10; 0; 2; 15]) (compileOptsOf []) =
      CompileWithHostIP [10; 0; 2; 15] (compileOptsOf []).
Proof.
  assert (Ha : 0 ≤ 10 < 256) by lia. assert (Hb : 0 ≤ 0 < 256) by lia.
  assert (Hc : 0 ≤ 2 < 256) by lia. assert (Hd : 0 ≤ 15 < 256) by lia.
  repeat (split; [assumption|]).
  exact (CompileWithHostIP_little_endian 10 0 2 15 (compileOptsOf []) Ha Hb Hc Hd).
Defined.

(** The address 10.0.2.15 is handed to the compiler as 0x0f02000a. *)
Example CompileWithHostIP_10_0_2_15 :
  extraArgs (CompileWithHostIP [10; 0; 2; 15] (compileOptsOf [])) =
  ["-DCALI_HOST_IP=0x0f02000a"].
Proof. reflexivity. Qed.

(** X21: the clang command line [compileAndAttachProgram] asks for, for any
    configuration and attach point: the fixed head, the defines for FIB
    lookup, log level (OFF when the configured level is empty), log prefix,
    endpoint-to-host drop, NAT tunnel MTU (reduced modulo 65536), entry
    point and flags in this order, the host IP of the interface's first
    address if it has one, the include path of the source directory and the
    fixed tail; llc writes to redir_tc.o in the temporary directory.  The
    entry point is the section of the attach point that tc loads. *)
Theorem clang_command_line (ToUpper : string → string) (BPF_LOG_PFX : string)
    (cfg : compileConfig) (m : bpfEndpointManager) (tempDir fname : string)
    (attachPoint : TCAttachPoint) :
  let compileOpts :=
    compileOptsOf (compileOptions ToUpper BPF_LOG_PFX cfg m tempDir attachPoint) in
  let logLevel :=
    if decide (ToUpper (bpfLogLevel cfg) = "") then "OFF" else ToUpper (bpfLogLevel cfg) in
  let hostIP :=
    match addrs (ifaceOf m (Iface attachPoint)) with
    | [] => []
    | ip :: _ => extraArgs (CompileWithHostIP ip (compileOptsOf []))
    end in
  clangArgs compileOpts =
    ["-x"; "c"; "-D__KERNEL__"; "-D__ASM_SYSREG_H";
     "-DCALI_FIB_LOOKUP_ENABLED=" +:+ fmt_v_bool (fibLookupEnabled cfg);
     "-DCALI_LOG_LEVEL=CALI_LOG_LEVEL_" +:+ logLevel;
     "-DCALI_LOG_PFX=" +:+ BPF_LOG_PFX +:+ Iface attachPoint;
     "-DCALI_DROP_WORKLOAD_TO_HOST=" +:+ fmt_v_bool (epToHostDrop cfg);
     "-DCALI_NAT_TUNNEL_MTU=" +:+ fmt_d (natTunnelMTU cfg mod 65536);
     "-DCALI_ENTRYPOINT_NAME=" +:+ Section_ attachPoint;
     "-DCALI_COMPILE_FLAGS=" +:+ fmt_d (CompileFlags attachPoint)] ++
    hostIP ++
    ["-I/code/bpf/xdp";
     "-Wno-unused-value"; "-Wno-pointer-sign"; "-Wno-compare-distinct-pointer-types";
     "-Wunused"; "-Wall"; "-Werror"; "-fno-stack-protector"; "-O2"; "-emit-llvm";
     "-c"; "-"; "-o"; "-"] ∧
  llcArgs compileOpts = ["-march=bpf"; "-filetype=obj"; "-o"; tempDir +:+ "/redir_tc.o"] ∧
  srcFile compileOpts = "/code/bpf/xdp/redir_tc.c" ∧
  tcFilterArgs fname attachPoint =
    ["filter"; "add"; "dev"; Iface attachPoint; TCHook_string (Hook attachPoint);
     "bpf"; "da"; "obj"; fname; "sec"; Section_ attachPoint].
Proof.
  cbv zeta. unfold compileOptions.
  destruct (addrs (ifaceOf m (Iface attachPoint))) as [|ip ips].
  - repeat split; reflexivity.
  - unfold compileOptsOf. rewrite foldl_app. cbn [foldl].
    unfold CompileWithHostIP. destruct (To4 ip) as [ipv4|]; repeat split; reflexivity.
Qed.

(** *** The profile index under an endpoint update *)

(** X22: after an endpoint update an id is listed under a profile exactly
    when it is the updated endpoint, the new version has at least one tier
    and lists the profile, or when it was listed before and is not the
    updated endpoint with a prior version that listed the profile.  A new
    version without tiers adds no profile membership. *)
Theorem update_profile_index (m : bpfEndpointManager) (msg : WorkloadEndpointUpdate)
    (q : ProfileID) (id' : WorkloadEndpointID) :
  id' ∈ usersOf (profilesToWorkloads (onWorkloadEndpointUpdate m msg)) q ↔
  (id' = WorkloadEndpointUpdate_Id msg ∧ Tiers (Endpoint msg) ≠ [] ∧
   refsProfile (Endpoint msg) q) ∨
  (id' ∈ usersOf (profilesToWorkloads m) q ∧
   ¬ (id' = WorkloadEndpointUpdate_Id msg ∧
      cachedRefsProfile m (WorkloadEndpointUpdate_Id msg) q)).
Proof.
  rewrite onWorkloadEndpointUpdate_eq. cbn.
  rewrite elem_of_usersOf_add.
  assert (Hnew : q ∈ (Tiers (Endpoint msg) ≫= λ _, profileEdges (ProfileIds (Endpoint msg))) ↔
                 Tiers (Endpoint msg) ≠ [] ∧ refsProfile (Endpoint msg) q).
  { rewrite list_elem_of_bind, <- elem_of_profileEdges. split.
    - intros (t & Hq & Ht). split; [|done]. intros Hnil. rewrite Hnil in Ht.
      by apply elem_of_nil in Ht.
    - intros [Htiers Hq]. destruct (Tiers (Endpoint msg)) as [|t ?]; [done|].
      exists t. split; [done|left]. }
  rewrite Hnew. unfold cachedRefsProfile.
  destruct (wlEps m !! WorkloadEndpointUpdate_Id msg) as [oldWL|].
  - rewrite elem_of_usersOf_discard, elem_of_profileEdges. naive_solver.
  - naive_solver.
Qed.
